(** * The agent's service command: configuration, startup and shutdown

    A shallow embedding of [cmd/service.go] (the [ServiceCommand] with its
    [Run] and [readConfig]) and of the configuration file of the same
    package ([Config], [PortConfig], [DefaultConfig]).

    Go values are modelled as follows: [string] as [string], [int] as [Z],
    an [error] by the text of its [Error()], a pointer that may be [nil] as
    an [option].  Calls into collaborators whose code is not part of the
    package sources (the agent, the metrics library, the loggers, the
    operating system) are fields of a record of operations on an abstract
    world; every such call is also recorded, with its result, in a trace of
    events, so that orderings and "was never called" can be stated. *)

From Stdlib Require Import ZArith List String Ascii Bool Lia DecimalString.
Import ListNotations.
Open Scope string_scope.
Open Scope Z_scope.

Set Implicit Arguments.

(** ** Go values *)

(** The text of a Go [error]. *)
Definition error := string.

(** A Go result pair [(value, err)] in which exactly one side is meaningful. *)
Inductive result (A : Type) : Type :=
| Ok (a : A)
| Err (e : error).
Arguments Ok {A} a.
Arguments Err {A} e.

(** [%d] of an [int]. *)
Definition fmtInt (z : Z) : string := NilZero.string_of_int (Z.to_int z).

(** [%v] of a [bool]. *)
Definition fmtBool (b : bool) : string := if b then "true" else "false".

(** ** The types the sources leave undeclared *)

(** The sources use, without declaring them, the service and check
    descriptors, the runtime records derived from them and the handles of
    the collaborators.  They are opaque to the command, so they are carried
    as the fields of one record; the accessor functions stand for the
    fields and methods [Run] uses ([service.Name], [service.NodeService()],
    [service.CheckType()], [check.Name], [check.CheckType],
    [check.HealthCheck(node)], and [%v] of a check). *)
Record Carriers : Type := {
  World : Type;
  Agent : Type;
  RPCServer : Type;
  HTTPServer : Type;
  LogGate : Type;
  LogWriter : Type;
  LogOutput : Type;
  InmemSink : Type;
  StatsiteSink : Type;
  NodeServiceT : Type;
  CheckTypeT : Type;
  HealthCheckT : Type;
  ServiceDefinition : Type;
  CheckDefinition : Type;
  serviceName : ServiceDefinition -> string;
  serviceNodeService : ServiceDefinition -> NodeServiceT;
  serviceCheckType : ServiceDefinition -> option CheckTypeT;
  checkName : CheckDefinition -> string;
  checkCheckType : CheckDefinition -> CheckTypeT;
  checkHealthCheck : CheckDefinition -> string -> HealthCheckT;
  fmtCheck : CheckDefinition -> string
}.

(** ** Configuration (the configuration file of package [cmd]) *)

(** [PortConfig]: [HTTP] and [Server] are declared in the sources; [DNS],
    [RPC], [SerfLan] and [SerfWan] are only read by the banner of [Run]. *)
Module PortConfig.
Record t : Type := {
  HTTP : Z;
  Server : Z;
  DNS : Z;
  RPC : Z;
  SerfLan : Z;
  SerfWan : Z
}.
End PortConfig.

Section Configuration.
Context {T : Carriers}.

(** [Config].  The first eight fields are the declared ones; the others are
    the fields [Run] reads although the declaration does not list them. *)
Record Config : Type := {
  LogLevel : string;
  NodeName : string;
  BindAddr : string;
  Ports : PortConfig.t;
  StartJoin : list string;
  Revision : string;
  Version : string;
  VersionPrerelease : string;
  StatsiteAddr : string;
  Services : list (ServiceDefinition T);
  Checks : list (CheckDefinition T);
  Datacenter : string;
  Server : bool;
  Bootstrap : bool;
  ClientAddr : string;
  AdvertiseAddr : string;
  EncryptKey : string;
  VerifyOutgoing : bool;
  VerifyIncoming : bool
}.

(** Go's zero value of [Config] ([var cmdConfig Config]). *)
Definition zeroConfig : Config := {|
  LogLevel := "";
  NodeName := "";
  BindAddr := "";
  Ports := {| PortConfig.HTTP := 0; PortConfig.Server := 0; PortConfig.DNS := 0;
              PortConfig.RPC := 0; PortConfig.SerfLan := 0; PortConfig.SerfWan := 0 |};
  StartJoin := [];
  Revision := "";
  Version := "";
  VersionPrerelease := "";
  StatsiteAddr := "";
  Services := [];
  Checks := [];
  Datacenter := "";
  Server := false;
  Bootstrap := false;
  ClientAddr := "";
  AdvertiseAddr := "";
  EncryptKey := "";
  VerifyOutgoing := false;
  VerifyIncoming := false
|}.

(** [DefaultConfig]: the composite literal sets [LogLevel], [BindAddr] and
    the two ports; every other field keeps Go's zero value. *)
Definition DefaultConfig : Config := {|
  LogLevel := "INFO";
  NodeName := "";
  BindAddr := "0.0.0.0";
  Ports := {| PortConfig.HTTP := 8500; PortConfig.Server := 8300; PortConfig.DNS := 0;
              PortConfig.RPC := 0; PortConfig.SerfLan := 0; PortConfig.SerfWan := 0 |};
  StartJoin := [];
  Revision := "";
  Version := "";
  VersionPrerelease := "";
  StatsiteAddr := "";
  Services := [];
  Checks := [];
  Datacenter := "";
  Server := false;
  Bootstrap := false;
  ClientAddr := "";
  AdvertiseAddr := "";
  EncryptKey := "";
  VerifyOutgoing := false;
  VerifyIncoming := false
|}.

Definition setLogLevel (v : string) (c : Config) : Config :=
  {| LogLevel := v; NodeName := NodeName c; BindAddr := BindAddr c; Ports := Ports c;
     StartJoin := StartJoin c; Revision := Revision c; Version := Version c;
     VersionPrerelease := VersionPrerelease c; StatsiteAddr := StatsiteAddr c;
     Services := Services c; Checks := Checks c; Datacenter := Datacenter c;
     Server := Server c; Bootstrap := Bootstrap c; ClientAddr := ClientAddr c;
     AdvertiseAddr := AdvertiseAddr c; EncryptKey := EncryptKey c;
     VerifyOutgoing := VerifyOutgoing c; VerifyIncoming := VerifyIncoming c |}.

Definition setNodeName (v : string) (c : Config) : Config :=
  {| LogLevel := LogLevel c; NodeName := v; BindAddr := BindAddr c; Ports := Ports c;
     StartJoin := StartJoin c; Revision := Revision c; Version := Version c;
     VersionPrerelease := VersionPrerelease c; StatsiteAddr := StatsiteAddr c;
     Services := Services c; Checks := Checks c; Datacenter := Datacenter c;
     Server := Server c; Bootstrap := Bootstrap c; ClientAddr := ClientAddr c;
     AdvertiseAddr := AdvertiseAddr c; EncryptKey := EncryptKey c;
     VerifyOutgoing := VerifyOutgoing c; VerifyIncoming := VerifyIncoming c |}.

Definition setBindAddr (v : string) (c : Config) : Config :=
  {| LogLevel := LogLevel c; NodeName := NodeName c; BindAddr := v; Ports := Ports c;
     StartJoin := StartJoin c; Revision := Revision c; Version := Version c;
     VersionPrerelease := VersionPrerelease c; StatsiteAddr := StatsiteAddr c;
     Services := Services c; Checks := Checks c; Datacenter := Datacenter c;
     Server := Server c; Bootstrap := Bootstrap c; ClientAddr := ClientAddr c;
     AdvertiseAddr := AdvertiseAddr c; EncryptKey := EncryptKey c;
     VerifyOutgoing := VerifyOutgoing c; VerifyIncoming := VerifyIncoming c |}.

(** The three assignments [config.Revision = ...; config.Version = ...;
    config.VersionPrerelease = ...] at the end of [readConfig]. *)
Definition setVersionInfo (rev ver pre : string) (c : Config) : Config :=
  {| LogLevel := LogLevel c; NodeName := NodeName c; BindAddr := BindAddr c; Ports := Ports c;
     StartJoin := StartJoin c; Revision := rev; Version := ver;
     VersionPrerelease := pre; StatsiteAddr := StatsiteAddr c;
     Services := Services c; Checks := Checks c; Datacenter := Datacenter c;
     Server := Server c; Bootstrap := Bootstrap c; ClientAddr := ClientAddr c;
     AdvertiseAddr := AdvertiseAddr c; EncryptKey := EncryptKey c;
     VerifyOutgoing := VerifyOutgoing c; VerifyIncoming := VerifyIncoming c |}.

End Configuration.
Arguments Config T : clear implicits.
Arguments DefaultConfig T : clear implicits.
Arguments zeroConfig T : clear implicits.

(** ** Go's [flag] package, for a set of string flags

    [readConfig] declares three string flags with [StringVar] and calls
    [Parse].  The model follows [FlagSet.parseOne] of the standard library:
    an argument that is shorter than two bytes or does not start with [-]
    ends the flags, so does [--]; one or two leading dashes are dropped;
    the value is what follows the first [=] after the first byte of the
    name, or else the next argument. *)
Module Flag.

Inductive ParseError : Type :=
| BadSyntax (arg : string)
| NotDefined (name : string)
| NeedsArgument (name : string)
| ErrHelp.

(** The text of the error, as [failf] formats it. *)
Definition errorText (e : ParseError) : string :=
  match e with
  | BadSyntax arg => "bad flag syntax: " ++ arg
  | NotDefined name => "flag provided but not defined: -" ++ name
  | NeedsArgument name => "flag needs an argument: -" ++ name
  | ErrHelp => "flag: help requested"
  end.

(** [failf] prints the error to the flag set's output (standard error);
    [ErrHelp] is returned without being printed. *)
Definition printed (e : ParseError) : option string :=
  match e with
  | ErrHelp => None
  | _ => Some (errorText e)
  end.

Section StringFlags.
Variable V : Type.

(** The formal flags: a name and what [Set] does to the variable behind it. *)
Definition FlagSet : Type := list (string * (string -> V -> V)).

Fixpoint lookup (name : string) (fs : FlagSet) : option (string -> V -> V) :=
  match fs with
  | [] => None
  | (n, set) :: fs' => if String.eqb n name then Some set else lookup name fs'
  end.

(** The scan [for i := 1; i < len(name); i++] for the first [=]: the part
    before it and, when there is one, the part after it. *)
Fixpoint cutAtEquals (s : string) : string * option string :=
  match s with
  | EmptyString => (EmptyString, None)
  | String c r =>
      if Ascii.eqb c "="%char then (EmptyString, Some r)
      else let (n, v) := cutAtEquals r in (String c n, v)
  end.

Definition splitValue (name : string) : string * option string :=
  match name with
  | EmptyString => (EmptyString, None)
  | String c r => let (n, v) := cutAtEquals r in (String c n, v)
  end.

(** [Parse]: [parseOne] repeated until an argument is not a flag. *)
Fixpoint Parse (fs : FlagSet) (v : V) (args : list string) : ParseError + V :=
  match args with
  | [] => inr v
  | s :: rest =>
      match s with
      | String c0 (String c1 r1) =>
          if negb (Ascii.eqb c0 "-"%char) then inr v
          else if Ascii.eqb c1 "-"%char && String.eqb r1 "" then inr v
          else
            let name := if Ascii.eqb c1 "-"%char then r1 else String c1 r1 in
            match name with
            | EmptyString => inl (BadSyntax s)
            | String n0 _ =>
                if Ascii.eqb n0 "-"%char || Ascii.eqb n0 "="%char then inl (BadSyntax s)
                else
                  let (name', value) := splitValue name in
                  match lookup name' fs with
                  | None =>
                      if String.eqb name' "help" || String.eqb name' "h" then inl ErrHelp
                      else inl (NotDefined name')
                  | Some set =>
                      match value with
                      | Some val => Parse fs (set val v) rest
                      | None =>
                          match rest with
                          | val :: rest' => Parse fs (set val v) rest'
                          | [] => inl (NeedsArgument name')
                          end
                      end
                  end
            end
      | _ => inr v
      end
  end.

End StringFlags.
End Flag.

(** ** The command, its collaborators and the trace of their calls *)

(** [cli.Ui] as the command holds it: the interface value it was created
    with, or a [cli.PrefixedUi] around another one. *)
Inductive Ui : Type :=
| BaseUi
| PrefixedUi (OutputPrefix InfoPrefix ErrorPrefix : string) (inner : Ui).

Section Command.
Context {T : Carriers}.

(** The fields of the metrics library's configuration that [Run] touches. *)
Record MetricsConfig : Type := {
  ServiceName : string;
  EnableHostname : bool
}.

Definition disableHostname (m : MetricsConfig) : MetricsConfig :=
  {| ServiceName := ServiceName m; EnableHostname := false |}.

(** A metrics sink [Run] creates. *)
Inductive Sink : Type :=
| OfInmem (inm : InmemSink T)
| OfStatsite (sink : StatsiteSink T).

(** What is handed to [metrics.NewGlobal]: one sink, or the composite
    literal [metrics.FanoutSink{inm, sink}]. *)
Inductive MetricSink : Type :=
| Single (s : Sink)
| FanoutSink (sinks : list Sink).

(** What [setupAgent] leaves behind: on success the agent and the servers
    it started ([c.rpcServer] and [c.httpServer] may stay [nil]); on failure
    the error and whatever it had stored in the command by then. *)
Inductive SetupResult : Type :=
| SetupOk (agent : Agent T) (rpcServer : option (RPCServer T)) (httpServer : option (HTTPServer T))
| SetupFailed (err : error) (agent : option (Agent T)) (rpcServer : option (RPCServer T))
    (httpServer : option (HTTPServer T)).

(** One entry per call that leaves the command, with the result it got. *)
Inductive Event : Type :=
| EvStderr (line : string)
| EvUiOutput (message : string)
| EvUiInfo (message : string)
| EvUiError (message : string)
| EvHostname (r : result string)
| EvSetupLoggers (logGate : LogGate T) (logWriter : option (LogWriter T)) (logOutput : LogOutput T)
| EvNewInmemSink (interval retain : Z) (inm : InmemSink T)
| EvDefaultInmemSignal (inm : InmemSink T)
| EvNewStatsiteSink (addr : string) (r : result (StatsiteSink T))
| EvNewGlobal (conf : MetricsConfig) (sink : MetricSink)
| EvSetupAgent (r : SetupResult)
| EvAgentShutdown (agent : Agent T) (err : option error)
| EvRpcShutdown (rpcServer : RPCServer T) (err : option error)
| EvHttpShutdown (httpServer : HTTPServer T) (err : option error)
| EvContact (addr : string) (reached : bool)
| EvAddService (ns : NodeServiceT T) (chkType : option (CheckTypeT T)) (err : option error)
| EvAddCheck (health : HealthCheckT T) (chkType : CheckTypeT T) (err : option error)
| EvStartSync
| EvFlush (logGate : LogGate T)
| EvHandleSignals (code : Z).

(** The collaborators.  Each operation acts on the world and returns what
    the Go call returns. *)
Record Collaborators : Type := {
  osHostname : World T -> result string * World T;
  GOMAXPROCS : World T -> Z;
  setupLoggers : Config T -> World T ->
                 (LogGate T * option (LogWriter T) * LogOutput T) * World T;
  NewInmemSink : Z -> Z -> World T -> InmemSink T * World T;
  DefaultInmemSignal : InmemSink T -> World T -> World T;
  metricsDefaultConfig : string -> MetricsConfig;
  NewStatsiteSink : string -> World T -> result (StatsiteSink T) * World T;
  NewGlobal : MetricsConfig -> MetricSink -> World T -> World T;
  setupAgent : Config T -> LogOutput T -> LogWriter T -> World T -> SetupResult * World T;
  agentShutdown : Agent T -> World T -> option error * World T;
  rpcShutdown : RPCServer T -> World T -> option error * World T;
  httpShutdown : HTTPServer T -> World T -> option error * World T;
  contact : string -> World T -> bool * World T;
  joinError : list string -> error;
  AddService : NodeServiceT T -> option (CheckTypeT T) -> World T -> option error * World T;
  AddCheck : HealthCheckT T -> CheckTypeT T -> World T -> option error * World T;
  StartSync : World T -> World T;
  Flush : LogGate T -> World T -> World T;
  handleSignals : Config T -> World T -> Z * World T
}.

End Command.
Arguments Sink T : clear implicits.
Arguments MetricSink T : clear implicits.
Arguments SetupResult T : clear implicits.
Arguments Event T : clear implicits.
Arguments Collaborators T : clear implicits.

(** [ServiceCommand].  [ShutdownCh] is a channel nothing in the sources
    reads; [agent], [rpcServer] and [httpServer] are the fields [setupAgent]
    fills. *)
Module ServiceCommand.
Record t (T : Carriers) : Type := {
  Revision : string;
  Version : string;
  VersionPrerelease : string;
  Ui : Ui;
  args : list string;
  agent : option (Agent T);
  rpcServer : option (RPCServer T);
  httpServer : option (HTTPServer T)
}.
End ServiceCommand.

(** ** Statements, early returns and deferred calls *)

Section Program.
Context {T : Carriers}.
Variable E : Collaborators T.

(** A call registered by a [defer] statement; the receiver is evaluated
    when the statement runs. *)
Inductive Deferred : Type :=
| DeferAgentShutdown (agent : Agent T)
| DeferRpcShutdown (rpcServer : RPCServer T)
| DeferHttpShutdown (httpServer : HTTPServer T).

(** The state a statement of [Run] acts on: the world, the receiver [c] and
    the deferred calls of the running function, last registered first. *)
Record St : Type := {
  world : World T;
  self : ServiceCommand.t T;
  deferred : list Deferred
}.

(** A statement falls through to the next one or returns from the function. *)
Inductive Res (R A : Type) : Type :=
| Next (a : A)
| Return (r : R).
Arguments Next {R A} a.
Arguments Return {R A} r.

(** A statement of a function returning [R]: the events it causes, the
    state it leaves and how it ends. *)
Definition M (R A : Type) : Type := St -> list (Event T) * St * Res R A.

Definition ret {R A : Type} (a : A) : M R A := fun st => ([], st, Next a).

Definition returnWith {R A : Type} (r : R) : M R A := fun st => ([], st, Return r).

Definition bind {R A B : Type} (m : M R A) (k : A -> M R B) : M R B :=
  fun st =>
    match m st with
    | (evs, st1, Next a) =>
        match k a st1 with
        | (evs', st2, r) => ((evs ++ evs')%list, st2, r)
        end
    | (evs, st1, Return r) => (evs, st1, Return r)
    end.

Notation "x <- m ;; k" := (bind m (fun x => k))
  (at level 61, m at next level, right associativity).
Notation "m ;;; k" := (bind m (fun _ => k))
  (at level 61, right associativity).

Definition emitAll {R : Type} (evs : list (Event T)) : M R unit :=
  fun st => (evs, st, Next tt).

Definition getSelf {R : Type} : M R (ServiceCommand.t T) :=
  fun st => ([], st, Next (self st)).

Definition setSelf {R : Type} (c : ServiceCommand.t T) : M R unit :=
  fun st => ([], {| world := world st; self := c; deferred := deferred st |}, Next tt).

(** A call of a collaborator that returns a value. *)
Definition perform {R A : Type} (op : World T -> A * World T) (ev : A -> Event T) : M R A :=
  fun st =>
    match op (world st) with
    | (a, w) => ([ev a], {| world := w; self := self st; deferred := deferred st |}, Next a)
    end.

(** A call of a collaborator whose result, if any, is dropped. *)
Definition performU {R : Type} (op : World T -> World T) (ev : Event T) : M R unit :=
  fun st => ([ev], {| world := op (world st); self := self st; deferred := deferred st |}, Next tt).

Definition readWorld {R A : Type} (f : World T -> A) : M R A :=
  fun st => ([], st, Next (f (world st))).

(** The [defer] statement. *)
Definition defer {R : Type} (d : Deferred) : M R unit :=
  fun st => ([], {| world := world st; self := self st; deferred := d :: deferred st |}, Next tt).

(** A call of a method of the command that registers no deferred call. *)
Definition call {R R' : Type} (body : M R R) : M R' R :=
  fun st =>
    match body st with
    | (evs, st1, Next r) => (evs, st1, Next r)
    | (evs, st1, Return r) => (evs, st1, Next r)
    end.

(** One deferred call; the error [Shutdown] returns is dropped. *)
Definition runOne (d : Deferred) (w : World T) : Event T * World T :=
  match d with
  | DeferAgentShutdown a => let (err, w1) := agentShutdown E a w in (EvAgentShutdown a err, w1)
  | DeferRpcShutdown r => let (err, w1) := rpcShutdown E r w in (EvRpcShutdown r err, w1)
  | DeferHttpShutdown h => let (err, w1) := httpShutdown E h w in (EvHttpShutdown h err, w1)
  end.

(** The deferred calls run when the function returns, last registered first. *)
Fixpoint runDeferred (ds : list Deferred) (w : World T) : list (Event T) * World T :=
  match ds with
  | [] => ([], w)
  | d :: ds' =>
      let (ev, w1) := runOne d w in
      let (evs, w2) := runDeferred ds' w1 in
      (ev :: evs, w2)
  end.

(** What a function with body [body] does when called on receiver [c]:
    the events, the world and receiver it leaves, and the value returned. *)
Definition runFunction (body : M Z Z) (c : ServiceCommand.t T) (w : World T)
  : list (Event T) * World T * ServiceCommand.t T * Z :=
  match body {| world := w; self := c; deferred := [] |} with
  | (evs, st, r) =>
      let (devs, w') := runDeferred (deferred st) (world st) in
      ((evs ++ devs)%list, w', self st, match r with Next z => z | Return z => z end)
  end.

(** ** The user interface *)

(** The methods of [cli.PrefixedUi]: a non-empty message gets the prefix,
    then the wrapped [Ui] is called. *)
Fixpoint uiOutput (u : Ui) (message : string) : list (Event T) :=
  match u with
  | BaseUi => [EvUiOutput message]
  | PrefixedUi o _ _ inner =>
      uiOutput inner (if String.eqb message "" then message else o ++ message)
  end.

Fixpoint uiInfo (u : Ui) (message : string) : list (Event T) :=
  match u with
  | BaseUi => [EvUiInfo message]
  | PrefixedUi _ i _ inner =>
      uiInfo inner (if String.eqb message "" then message else i ++ message)
  end.

Fixpoint uiError (u : Ui) (message : string) : list (Event T) :=
  match u with
  | BaseUi => [EvUiError message]
  | PrefixedUi _ _ e inner =>
      uiError inner (if String.eqb message "" then message else e ++ message)
  end.

(** [c.Ui.Output], [c.Ui.Info] and [c.Ui.Error]. *)
Definition UiOutput {R : Type} (message : string) : M R unit :=
  c <- getSelf ;; emitAll (uiOutput (ServiceCommand.Ui c) message).

Definition UiInfo {R : Type} (message : string) : M R unit :=
  c <- getSelf ;; emitAll (uiInfo (ServiceCommand.Ui c) message).

Definition UiError {R : Type} (message : string) : M R unit :=
  c <- getSelf ;; emitAll (uiError (ServiceCommand.Ui c) message).

(** [Help]. *)
Definition Help : string := "".

(** The state [st] after a collaborator moved the world to [w]. *)
Definition withWorld (st : St) (w : World T) : St :=
  {| world := w; self := self st; deferred := deferred st |}.

(** ** [readConfig] *)

(** The flags [readConfig] declares with [StringVar]; each writes one field
    of [cmdConfig]. *)
Definition cmdFlags : Flag.FlagSet (Config T) :=
  [ ("log-level", setLogLevel);
    ("node", setNodeName);
    ("bind", setBindAddr) ].

(** The block [if config.NodeName == "" { ... }] of [readConfig]: the host
    name fills an empty node name; a failed lookup is reported and makes
    [readConfig] return [nil]. *)
Definition defaultNodeName (config : Config T) : M (option (Config T)) (Config T) :=
  if String.eqb (NodeName config) "" then
    r <- perform (osHostname E) EvHostname ;;
    match r with
    | Err err =>
        UiError ("Error determining hostname: " ++ err) ;;;
        returnWith None
    | Ok hostname => ret (setNodeName hostname config)
    end
  else ret config.

(** [readConfig].  The flags are parsed into [cmdConfig]; a parse error is
    printed by the flag set, which then calls [Usage], and [nil] is
    returned.  The merge of [cmdConfig] (and of configuration files) into
    [config] is inside a comment in the sources, so [cmdConfig] is not used
    after the parse. *)
Definition readConfig : M (option (Config T)) (option (Config T)) :=
  c <- getSelf ;;
  match Flag.Parse cmdFlags (zeroConfig T) (ServiceCommand.args c) with
  | inl err =>
      emitAll (match Flag.printed err with Some line => [EvStderr line] | None => [] end) ;;;
      UiOutput Help ;;;
      returnWith None
  | inr _cmdConfig =>
      let config := DefaultConfig T in
      config <- defaultNodeName config ;;
      c <- getSelf ;;
      let config := setVersionInfo (ServiceCommand.Revision c) (ServiceCommand.Version c)
                      (ServiceCommand.VersionPrerelease c) config in
      returnWith (Some config)
  end.

(** ** [Run] *)

(** [time.Second] and [time.Minute], in nanoseconds. *)
Definition Second : Z := 1000000000.
Definition Minute : Z := 60 * Second.

(** "Check GOMAXPROCS". *)
Definition checkGOMAXPROCS : M Z unit :=
  n <- readWorld (GOMAXPROCS E) ;;
  if n =? 1 then
    UiError "WARNING: It is highly recommended to set GOMAXPROCS higher than 1"
  else ret tt.

(** "Setup telemetry" and "Optionally configure a statsite sink if provided". *)
Definition setupTelemetry (config : Config T) : M Z unit :=
  inm <- perform (NewInmemSink E (10 * Second) Minute) (EvNewInmemSink (10 * Second) Minute) ;;
  performU (DefaultInmemSignal E inm) (EvDefaultInmemSignal inm) ;;;
  let metricsConf := metricsDefaultConfig E "consul" in
  if negb (String.eqb (StatsiteAddr config) "") then
    r <- perform (NewStatsiteSink E (StatsiteAddr config)) (EvNewStatsiteSink (StatsiteAddr config)) ;;
    match r with
    | Err err =>
        UiError ("Failed to start statsite sink. Got: " ++ err) ;;;
        returnWith 1
    | Ok sink =>
        let fanout := FanoutSink [OfInmem inm; OfStatsite sink] in
        performU (NewGlobal E metricsConf fanout) (EvNewGlobal metricsConf fanout)
    end
  else
    let metricsConf := disableHostname metricsConf in
    performU (NewGlobal E metricsConf (Single (OfInmem inm)))
             (EvNewGlobal metricsConf (Single (OfInmem inm))).

(** What [setupAgent] stored in the receiver. *)
Definition storeHandles (a : option (Agent T)) (r : option (RPCServer T))
  (h : option (HTTPServer T)) : M Z unit :=
  c <- getSelf ;;
  setSelf {| ServiceCommand.Revision := ServiceCommand.Revision c;
             ServiceCommand.Version := ServiceCommand.Version c;
             ServiceCommand.VersionPrerelease := ServiceCommand.VersionPrerelease c;
             ServiceCommand.Ui := ServiceCommand.Ui c;
             ServiceCommand.args := ServiceCommand.args c;
             ServiceCommand.agent := a;
             ServiceCommand.rpcServer := r;
             ServiceCommand.httpServer := h |}.

(** "Create the agent": a failing [setupAgent] returns 1 at once; after a
    successful one the three [defer] statements run, the two servers' only
    when their field is not [nil]. *)
Definition createAgent (config : Config T) (logOutput : LogOutput T) (logWriter : LogWriter T)
  : M Z unit :=
  r <- perform (setupAgent E config logOutput logWriter) EvSetupAgent ;;
  match r with
  | SetupFailed _ a rpc http =>
      storeHandles a rpc http ;;;
      returnWith 1
  | SetupOk a rpc http =>
      storeHandles (Some a) rpc http ;;;
      defer (DeferAgentShutdown a) ;;;
      c <- getSelf ;;
      match ServiceCommand.rpcServer c with
      | Some rpcServer => defer (DeferRpcShutdown rpcServer)
      | None => ret tt
      end ;;;
      c <- getSelf ;;
      match ServiceCommand.httpServer c with
      | Some httpServer => defer (DeferHttpShutdown httpServer)
      | None => ret tt
      end
  end.

(** Modelled from the spec: the clustering subsystem's join operation
    ([join(addresses) -> successCount]), whose code is not in the sources.
    Each address is contacted in turn and the reachable ones are counted. *)
Fixpoint join {R : Type} (addrs : list string) : M R Z :=
  match addrs with
  | [] => ret 0
  | addr :: rest =>
      reached <- perform (contact E addr) (EvContact addr) ;;
      n <- join rest ;;
      ret ((if reached then 1 else 0) + n)
  end.

(** Modelled from the spec: [startupJoin], whose code is not in the sources.
    With an empty start-join list nothing is attempted; otherwise every
    listed address is contacted, and reaching none of them is the error. *)
Definition startupJoin {R : Type} (config : Config T) : M R (option error) :=
  if Nat.eqb (List.length (StartJoin config)) 0 then ret None
  else
    n <- join (StartJoin config) ;;
    if n =? 0 then ret (Some (joinError E (StartJoin config))) else ret None.

(** "Join startup nodes if specified". *)
Definition joinStartupNodes (config : Config T) : M Z unit :=
  err <- call (startupJoin config) ;;
  match err with
  | Some err =>
      UiError err ;;;
      returnWith 1
  | None => ret tt
  end.

(** "Register the services": the loop over [config.Services]. *)
Fixpoint registerServices (services : list (ServiceDefinition T)) : M Z unit :=
  match services with
  | [] => ret tt
  | service :: rest =>
      let ns := serviceNodeService T service in
      let chkType := serviceCheckType T service in
      err <- perform (AddService E ns chkType) (EvAddService ns chkType) ;;
      match err with
      | Some err =>
          UiError ("Failed to register service '" ++ serviceName T service ++ "': " ++ err) ;;;
          returnWith 1
      | None => registerServices rest
      end
  end.

(** "Register the checks": the loop over [config.Checks]. *)
Fixpoint registerChecks (nodeName : string) (checks : list (CheckDefinition T)) : M Z unit :=
  match checks with
  | [] => ret tt
  | check :: rest =>
      let health := checkHealthCheck T check nodeName in
      let chkType := checkCheckType T check in
      err <- perform (AddCheck E health chkType) (EvAddCheck health chkType) ;;
      match err with
      | Some err =>
          UiError ("Failed to register check '" ++ checkName T check ++ "': " ++ err
                   ++ " " ++ fmtCheck T check) ;;;
          returnWith 1
      | None => registerChecks nodeName rest
      end
  end.

(** The line feed that ends the last banner line. *)
Definition newline : string := String (ascii_of_nat 10) EmptyString.

(** The banner: from [c.Ui.Output("Consul agent running!")] to the line
    before [logGate.Flush()]. *)
Definition banner (config : Config T) : M Z unit :=
  UiOutput "Consul agent running!" ;;;
  UiInfo ("     Node name: '" ++ NodeName config ++ "'") ;;;
  UiInfo ("    Datacenter: '" ++ Datacenter config ++ "'") ;;;
  UiInfo ("        Server: " ++ fmtBool (Server config)
          ++ " (bootstrap: " ++ fmtBool (Bootstrap config) ++ ")") ;;;
  UiInfo ("   Client Addr: " ++ ClientAddr config
          ++ " (HTTP: " ++ fmtInt (PortConfig.HTTP (Ports config))
          ++ ", DNS: " ++ fmtInt (PortConfig.DNS (Ports config))
          ++ ", RPC: " ++ fmtInt (PortConfig.RPC (Ports config)) ++ ")") ;;;
  UiInfo ("  Cluster Addr: " ++ AdvertiseAddr config
          ++ " (LAN: " ++ fmtInt (PortConfig.SerfLan (Ports config))
          ++ ", WAN: " ++ fmtInt (PortConfig.SerfWan (Ports config)) ++ ")") ;;;
  UiInfo ("Gossip encrypt: " ++ fmtBool (negb (String.eqb (EncryptKey config) ""))
          ++ ", RPC-TLS: " ++ fmtBool (VerifyOutgoing config)
          ++ ", TLS-Incoming: " ++ fmtBool (VerifyIncoming config)) ;;;
  UiInfo "" ;;;
  UiOutput ("Log data will now stream in as it occurs:" ++ newline).

(** [Run] from "Check GOMAXPROCS" to its last line, for the configuration
    [readConfig] returned. *)
Definition RunBodyFrom (config : Config T) : M Z Z :=
  checkGOMAXPROCS ;;;
  loggers <- perform (setupLoggers E config)
               (fun l => EvSetupLoggers (fst (fst l)) (snd (fst l)) (snd l)) ;;
  let logGate := fst (fst loggers) in
  let logOutput := snd loggers in
  match snd (fst loggers) with
  | None => returnWith 1
  | Some logWriter =>
      setupTelemetry config ;;;
      createAgent config logOutput logWriter ;;;
      joinStartupNodes config ;;;
      registerServices (Services config) ;;;
      registerChecks (NodeName config) (Checks config) ;;;
      performU (StartSync E) EvStartSync ;;;
      banner config ;;;
      performU (Flush E logGate) (EvFlush logGate) ;;;
      code <- perform (handleSignals E config) EvHandleSignals ;;
      returnWith code
  end.

(** The statements of [Run] that follow the [defer] statements, from
    "Join startup nodes if specified" to the last line; [RunBodyFrom] ends
    with them. *)
Definition serve (config : Config T) (logGate : LogGate T) : M Z Z :=
  joinStartupNodes config ;;;
  registerServices (Services config) ;;;
  registerChecks (NodeName config) (Checks config) ;;;
  performU (StartSync E) EvStartSync ;;;
  banner config ;;;
  performU (Flush E logGate) (EvFlush logGate) ;;;
  code <- perform (handleSignals E config) EvHandleSignals ;;
  returnWith code.

(** The deferred calls after a successful [setupAgent], last registered
    first. *)
Definition shutdownStack (a : Agent T) (rpc : option (RPCServer T))
  (http : option (HTTPServer T)) : list Deferred :=
  ((match http with Some h => [DeferHttpShutdown h] | None => [] end)
   ++ (match rpc with Some r => [DeferRpcShutdown r] | None => [] end)
   ++ [DeferAgentShutdown a])%list.

Definition setUi (u : Ui) (c : ServiceCommand.t T) : ServiceCommand.t T :=
  {| ServiceCommand.Revision := ServiceCommand.Revision c;
     ServiceCommand.Version := ServiceCommand.Version c;
     ServiceCommand.VersionPrerelease := ServiceCommand.VersionPrerelease c;
     ServiceCommand.Ui := u;
     ServiceCommand.args := ServiceCommand.args c;
     ServiceCommand.agent := ServiceCommand.agent c;
     ServiceCommand.rpcServer := ServiceCommand.rpcServer c;
     ServiceCommand.httpServer := ServiceCommand.httpServer c |}.

Definition setArgs (a : list string) (c : ServiceCommand.t T) : ServiceCommand.t T :=
  {| ServiceCommand.Revision := ServiceCommand.Revision c;
     ServiceCommand.Version := ServiceCommand.Version c;
     ServiceCommand.VersionPrerelease := ServiceCommand.VersionPrerelease c;
     ServiceCommand.Ui := ServiceCommand.Ui c;
     ServiceCommand.args := a;
     ServiceCommand.agent := ServiceCommand.agent c;
     ServiceCommand.rpcServer := ServiceCommand.rpcServer c;
     ServiceCommand.httpServer := ServiceCommand.httpServer c |}.

(** The body of [Run]. *)
Definition RunBody (args : list string) : M Z Z :=
  c <- getSelf ;;
  setSelf (setUi (PrefixedUi "==> " "    " "==> " (ServiceCommand.Ui c)) c) ;;;
  c <- getSelf ;;
  setSelf (setArgs args c) ;;;
  config <- call readConfig ;;
  match config with
  | None => returnWith 1
  | Some config =>
      c <- getSelf ;;
      setSelf (setArgs args c) ;;;
      RunBodyFrom config
  end.

(** The receiver once [Run] has wrapped its [Ui] and stored [args]. *)
Definition entered (args : list string) (c : ServiceCommand.t T) : ServiceCommand.t T :=
  setArgs args (setUi (PrefixedUi "==> " "    " "==> " (ServiceCommand.Ui c)) c).

(** The configuration [readConfig] returns on receiver [c] when the host
    is named [h]. *)
Definition resolved (c : ServiceCommand.t T) (h : string) : Config T :=
  setVersionInfo (ServiceCommand.Revision c) (ServiceCommand.Version c)
    (ServiceCommand.VersionPrerelease c) (setNodeName h (DefaultConfig T)).

(** [Run]: the body, then the deferred calls. *)
Definition Run (args : list string) (c : ServiceCommand.t T) (w : World T)
  : list (Event T) * World T * ServiceCommand.t T * Z :=
  runFunction (RunBody args) c w.

(** [Run] entered after its configuration was resolved to [config]. *)
Definition RunFrom (config : Config T) (c : ServiceCommand.t T) (w : World T)
  : list (Event T) * World T * ServiceCommand.t T * Z :=
  runFunction (RunBodyFrom config) c w.

(** The parts of what [Run] leaves. *)
Definition traceOf (r : list (Event T) * World T * ServiceCommand.t T * Z) : list (Event T) :=
  fst (fst (fst r)).

Definition worldOf (r : list (Event T) * World T * ServiceCommand.t T * Z) : World T :=
  snd (fst (fst r)).

Definition receiverOf (r : list (Event T) * World T * ServiceCommand.t T * Z)
  : ServiceCommand.t T :=
  snd (fst r).

Definition codeOf (r : list (Event T) * World T * ServiceCommand.t T * Z) : Z := snd r.

End Program.

Arguments Next {R A} a.
Arguments Return {R A} r.
Arguments Deferred T : clear implicits.
Arguments St T : clear implicits.
Arguments M T R A : clear implicits.

(** ** The log gate *)

(** Modelled from the spec: the log gate behind [logGate.Flush()], whose
    code is not in the sources.  It is a buffering sink with two states.
    While gated, [write] appends the entry to an internal ordered sequence
    and nothing reaches the destination; the first [flush] emits the
    buffered entries in arrival order and marks the gate released; a later
    [flush] is a no-op; once released, [write] forwards at once. *)
Module GatedWriter.
Section Gate.
Variable Entry : Type.

Record t : Type := {
  released : bool;
  buffer : list Entry;
  downstream : list Entry
}.

(** A new gate over a destination that has received nothing yet. *)
Definition new : t := {| released := false; buffer := []; downstream := [] |}.

Definition write (e : Entry) (g : t) : t :=
  if released g then
    {| released := true; buffer := buffer g; downstream := (downstream g ++ [e])%list |}
  else
    {| released := false; buffer := (buffer g ++ [e])%list; downstream := downstream g |}.

Definition flush (g : t) : t :=
  if released g then g
  else {| released := true; buffer := []; downstream := (downstream g ++ buffer g)%list |}.

(** The calls a client can make. *)
Inductive Op : Type :=
| Write (e : Entry)
| Flush.

Definition step (g : t) (op : Op) : t :=
  match op with
  | Write e => write e g
  | Flush => flush g
  end.

Definition run (ops : list Op) (g : t) : t := fold_left step ops g.

(** The entries written by a sequence of calls, in order. *)
Fixpoint written (ops : list Op) : list Entry :=
  match ops with
  | [] => []
  | Write e :: ops' => e :: written ops'
  | Flush :: ops' => written ops'
  end.

End Gate.
End GatedWriter.

(** ** A concrete environment

    Collaborators with scripted results, used to run [Run] on concrete
    inputs.  The world counts the calls made so far. *)
Module Demo.

Definition carriers : Carriers := {|
  World := nat;
  Agent := string;
  RPCServer := string;
  HTTPServer := string;
  LogGate := string;
  LogWriter := string;
  LogOutput := string;
  InmemSink := string;
  StatsiteSink := string;
  NodeServiceT := string;
  CheckTypeT := string;
  HealthCheckT := string * string;
  ServiceDefinition := string;
  CheckDefinition := string;
  serviceName := fun s => s;
  serviceNodeService := fun s => s;
  serviceCheckType := fun _ => None;
  checkName := fun c => c;
  checkCheckType := fun c => c;
  checkHealthCheck := fun c node => (node, c);
  fmtCheck := fun c => "&{" ++ c ++ "}"
|}.

(** The script: what each collaborator answers. *)
Record Script : Type := {
  hostname : result string;
  procs : Z;
  logWriter : option string;
  statsite : result string;
  setup : SetupResult carriers;
  shutdownError : option error;
  reachable : string -> bool;
  serviceError : string -> option error;
  checkError : string -> option error;
  signal : Z
}.

Definition tick (w : nat) : nat := S w.

Definition collaborators (s : Script) : Collaborators carriers := {|
  osHostname := fun (w : World carriers) => (hostname s, tick w);
  GOMAXPROCS := fun _ => procs s;
  setupLoggers := fun _ (w : World carriers) => (("gate", logWriter s, "stderr"), tick w);
  NewInmemSink := fun _ _ (w : World carriers) => ("inmem", tick w);
  DefaultInmemSignal := fun _ (w : World carriers) => tick w;
  metricsDefaultConfig := fun name => {| ServiceName := name; EnableHostname := true |};
  NewStatsiteSink := fun _ (w : World carriers) => (statsite s, tick w);
  NewGlobal := fun _ _ (w : World carriers) => tick w;
  setupAgent := fun _ _ _ (w : World carriers) => (setup s, tick w);
  agentShutdown := fun _ (w : World carriers) => (shutdownError s, tick w);
  rpcShutdown := fun _ (w : World carriers) => (shutdownError s, tick w);
  httpShutdown := fun _ (w : World carriers) => (shutdownError s, tick w);
  contact := fun addr (w : World carriers) => (reachable s addr, tick w);
  joinError := fun _ => "no start-join address could be reached";
  AddService := fun ns _ (w : World carriers) => (serviceError s ns, tick w);
  AddCheck := fun (health : HealthCheckT carriers) _ (w : World carriers) => (checkError s (snd health), tick w);
  StartSync := fun (w : World carriers) => tick w;
  Flush := fun _ (w : World carriers) => tick w;
  handleSignals := fun _ (w : World carriers) => (signal s, tick w)
|}.

(** Everything succeeds: both servers start, the process ends on a signal
    with code 0. *)
Definition happy : Script := {|
  hostname := Ok "build-host";
  procs := 4;
  logWriter := Some "writer";
  statsite := Ok "statsite";
  setup := SetupOk (T := carriers) "agent" (Some "rpc") (Some "http");
  shutdownError := None;
  reachable := fun _ => true;
  serviceError := fun _ => None;
  checkError := fun _ => None;
  signal := 0
|}.




(** The host name lookup fails. *)
Definition hostnameFails : Script := {|
  hostname := Err "hostname: not available";
  procs := 4;
  logWriter := Some "writer";
  statsite := Ok "statsite";
  setup := SetupOk (T := carriers) "agent" (Some "rpc") (Some "http");
  shutdownError := None;
  reachable := fun _ => true;
  serviceError := fun _ => None;
  checkError := fun _ => None;
  signal := 0
|}.

(** Of the start-join addresses only 10.0.0.1 answers. *)
Definition oneReachable : Script := {|
  hostname := Ok "build-host";
  procs := 4;
  logWriter := Some "writer";
  statsite := Ok "statsite";
  setup := SetupOk (T := carriers) "agent" (Some "rpc") (Some "http");
  shutdownError := None;
  reachable := fun addr => String.eqb addr "10.0.0.1";
  serviceError := fun _ => None;
  checkError := fun _ => None;
  signal := 0
|}.

(** No start-join address answers. *)
Definition noneReachable : Script := {|
  hostname := Ok "build-host";
  procs := 4;
  logWriter := Some "writer";
  statsite := Ok "statsite";
  setup := SetupOk (T := carriers) "agent" (Some "rpc") (Some "http");
  shutdownError := None;
  reachable := fun _ => false;
  serviceError := fun _ => None;
  checkError := fun _ => None;
  signal := 0
|}.

(** Registering the service "db" fails. *)
Definition dbFails : Script := {|
  hostname := Ok "build-host";
  procs := 4;
  logWriter := Some "writer";
  statsite := Ok "statsite";
  setup := SetupOk (T := carriers) "agent" (Some "rpc") (Some "http");
  shutdownError := None;
  reachable := fun _ => true;
  serviceError := fun name => if String.eqb name "db" then Some "port 5432 already registered" else None;
  checkError := fun _ => None;
  signal := 0
|}.

(** A resolved configuration with two start-join addresses, three services
    and one check; [statsiteAddr] is the address of the statsite sink. *)
Definition configured (statsiteAddr : string) : Config carriers := {|
  LogLevel := "INFO";
  NodeName := "build-host";
  BindAddr := "0.0.0.0";
  Ports := {| PortConfig.HTTP := 8500; PortConfig.Server := 8300; PortConfig.DNS := 0;
              PortConfig.RPC := 0; PortConfig.SerfLan := 0; PortConfig.SerfWan := 0 |};
  StartJoin := ["10.0.0.1"; "10.0.0.2"];
  Revision := "abc123";
  Version := "0.1.0";
  VersionPrerelease := "dev";
  StatsiteAddr := statsiteAddr;
  Services := ["web"; "db"; "cache"] : list (ServiceDefinition carriers);
  Checks := ["ping"] : list (CheckDefinition carriers);
  Datacenter := "dc1";
  Server := false;
  Bootstrap := false;
  ClientAddr := "127.0.0.1";
  AdvertiseAddr := "10.0.0.7";
  EncryptKey := "";
  VerifyOutgoing := false;
  VerifyIncoming := false
|}.

(** Arguments that set all three flags. *)
Definition overrides : list string :=
  ["-log-level"; "DEBUG"; "-node=web1"; "--bind"; "10.0.0.5"].

Definition command (args : list string) : ServiceCommand.t carriers := {|
  ServiceCommand.Revision := "abc123";
  ServiceCommand.Version := "0.1.0";
  ServiceCommand.VersionPrerelease := "dev";
  ServiceCommand.Ui := BaseUi;
  ServiceCommand.args := args;
  ServiceCommand.agent := None;
  ServiceCommand.rpcServer := None;
  ServiceCommand.httpServer := None
|}.

(** The world before any call. *)
Definition start : World carriers := 0%nat.

(** The state in which [Run] called with [args] calls [readConfig]. *)
Definition entry (args : list string) : St carriers :=
  {| world := start; self := entered args (command []); deferred := [] |}.

(** [Run] under the script [s], entered with the configuration
    [configured statsiteAddr]. *)
Definition run (s : Script) (statsiteAddr : string)
  : list (Event carriers) * World carriers * ServiceCommand.t carriers * Z :=
  RunFrom (collaborators s) (configured statsiteAddr) (command []) start.

(** [Run] under the script [s] on the command line [args]. *)
Definition runArgs (s : Script) (args : list string)
  : list (Event carriers) * World carriers * ServiceCommand.t carriers * Z :=
  Run (collaborators s) args (command []) start.

End Demo.

(** ** The shape of a run

    The traces [Run] can leave, written out path by path.  The theorems
    below are stated on [Run], [RunFrom] and the functions they call; these
    shapes are how their proofs read a trace. *)

(** The collaborator an event belongs to. *)
Inductive Kind : Type :=
| KStderr | KUi | KHostname | KLoggers | KMetrics | KSetupAgent | KShutdown
| KContact | KAddService | KAddCheck | KStartSync | KFlush | KSignals.

Definition kind {T : Carriers} (ev : Event T) : Kind :=
  match ev with
  | EvStderr _ => KStderr
  | EvUiOutput _ | EvUiInfo _ | EvUiError _ => KUi
  | EvHostname _ => KHostname
  | EvSetupLoggers _ _ _ => KLoggers
  | EvNewInmemSink _ _ _ | EvDefaultInmemSignal _ | EvNewStatsiteSink _ _ | EvNewGlobal _ _ => KMetrics
  | EvSetupAgent _ => KSetupAgent
  | EvAgentShutdown _ _ | EvRpcShutdown _ _ | EvHttpShutdown _ _ => KShutdown
  | EvContact _ _ => KContact
  | EvAddService _ _ _ => KAddService
  | EvAddCheck _ _ _ => KAddCheck
  | EvStartSync => KStartSync
  | EvFlush _ => KFlush
  | EvHandleSignals _ => KSignals
  end.

(** The kinds of the events of [serve]. *)
Definition servedKind (k : Kind) : bool :=
  match k with
  | KContact | KUi | KAddService | KAddCheck | KStartSync | KFlush | KSignals => true
  | _ => false
  end.

(** A call that reports a failure of a startup step. *)
Definition fatal {T : Carriers} (ev : Event T) : bool :=
  match ev with
  | EvHostname (Err _) => true
  | EvSetupLoggers _ None _ => true
  | EvNewStatsiteSink _ (Err _) => true
  | EvSetupAgent (SetupFailed _ _ _ _) => true
  | EvAddService _ _ (Some _) => true
  | EvAddCheck _ _ (Some _) => true
  | _ => false
  end.


Section Shapes.
Context {T : Carriers}.
Variable E : Collaborators T.

(** The prefix the wrappers around the base [Ui] put before a non-empty
    error message. *)
Fixpoint errorPrefix (u : Ui) : string :=
  match u with
  | BaseUi => ""
  | PrefixedUi _ _ e inner => errorPrefix inner ++ e
  end.

Definition okService (s : ServiceDefinition T) : Event T :=
  EvAddService (serviceNodeService T s) (serviceCheckType T s) None.

Definition failedService (s : ServiceDefinition T) (err : error) : Event T :=
  EvAddService (serviceNodeService T s) (serviceCheckType T s) (Some err).

Definition serviceMessage (s : ServiceDefinition T) (err : error) : string :=
  "Failed to register service '" ++ serviceName T s ++ "': " ++ err.

Definition okCheck (node : string) (c : CheckDefinition T) : Event T :=
  EvAddCheck (checkHealthCheck T c node) (checkCheckType T c) None.

Definition failedCheck (node : string) (c : CheckDefinition T) (err : error) : Event T :=
  EvAddCheck (checkHealthCheck T c node) (checkCheckType T c) (Some err).

Definition checkMessage (c : CheckDefinition T) (err : error) : string :=
  "Failed to register check '" ++ checkName T c ++ "': " ++ err ++ " " ++ fmtCheck T c.

(** How many of the answers [results] are "reached". *)
Fixpoint reachedCount (results : list bool) : Z :=
  match results with
  | [] => 0
  | b :: rest => (if b then 1 else 0) + reachedCount rest
  end.

(** The contact attempts on [addrs] with the answers [results]. *)
Definition contactEvents (addrs : list string) (results : list bool) : list (Event T) :=
  map (fun p => EvContact (fst p) (snd p)) (combine addrs results).

(** The events of the banner on the user interface [u]. *)
Definition bannerEvents (u : Ui) (config : Config T) : list (Event T) :=
  (uiOutput u "Consul agent running!"
   ++ uiInfo u ("     Node name: '" ++ NodeName config ++ "'")
   ++ uiInfo u ("    Datacenter: '" ++ Datacenter config ++ "'")
   ++ uiInfo u ("        Server: " ++ fmtBool (Server config)
                ++ " (bootstrap: " ++ fmtBool (Bootstrap config) ++ ")")
   ++ uiInfo u ("   Client Addr: " ++ ClientAddr config
                ++ " (HTTP: " ++ fmtInt (PortConfig.HTTP (Ports config))
                ++ ", DNS: " ++ fmtInt (PortConfig.DNS (Ports config))
                ++ ", RPC: " ++ fmtInt (PortConfig.RPC (Ports config)) ++ ")")
   ++ uiInfo u ("  Cluster Addr: " ++ AdvertiseAddr config
                ++ " (LAN: " ++ fmtInt (PortConfig.SerfLan (Ports config))
                ++ ", WAN: " ++ fmtInt (PortConfig.SerfWan (Ports config)) ++ ")")
   ++ uiInfo u ("Gossip encrypt: " ++ fmtBool (negb (String.eqb (EncryptKey config) ""))
                ++ ", RPC-TLS: " ++ fmtBool (VerifyOutgoing config)
                ++ ", TLS-Incoming: " ++ fmtBool (VerifyIncoming config))
   ++ uiInfo u ""
   ++ uiOutput u ("Log data will now stream in as it occurs:" ++ newline))%list.

(** The deferred shutdowns of a started agent [a] with servers [rpc] and
    [http]: the HTTP server's, the RPC server's, the agent's, each with
    whatever error it returned. *)
Definition released (a : Agent T) (rpc : option (RPCServer T)) (http : option (HTTPServer T))
  (down : list (Event T)) : Prop :=
  exists eh er ea,
    down = ((match http with Some h => [EvHttpShutdown h eh] | None => [] end)
            ++ (match rpc with Some r => [EvRpcShutdown r er] | None => [] end)
            ++ [EvAgentShutdown a ea])%list.

Variable config : Config T.
Variable u : Ui.

(** The GOMAXPROCS warning, when there is one. *)
Inductive Warned : list (Event T) -> Prop :=
| NoWarning : Warned []
| Warning :
    Warned (uiError u "WARNING: It is highly recommended to set GOMAXPROCS higher than 1").

Definition inmemEvents (inm : InmemSink T) : list (Event T) :=
  [EvNewInmemSink (10 * Second) Minute inm; EvDefaultInmemSignal inm].

(** Telemetry that was set up: the in-memory sink alone, or the fan-out. *)
Inductive Telemetry (inm : InmemSink T) : list (Event T) -> Prop :=
| TeleInmem :
    StatsiteAddr config = "" ->
    Telemetry inm [EvNewGlobal (disableHostname (metricsDefaultConfig E "consul"))
                     (Single (OfInmem inm))]
| TeleFanout sink :
    StatsiteAddr config <> "" ->
    Telemetry inm [EvNewStatsiteSink (StatsiteAddr config) (Ok sink);
                   EvNewGlobal (metricsDefaultConfig E "consul")
                     (FanoutSink [OfInmem inm; OfStatsite sink])].

(** A join step that lets [Run] go on. *)
Inductive Joined : list (Event T) -> Prop :=
| JoinSkipped : StartJoin config = [] -> Joined []
| JoinReached results addr :
    List.length results = List.length (StartJoin config) ->
    In (EvContact addr true) (contactEvents (StartJoin config) results) ->
    Joined (contactEvents (StartJoin config) results).

(** [Run] after the [defer] statements: the events and the value returned. *)
Inductive Served (logGate : LogGate T) : list (Event T) -> Z -> Prop :=
| ServedJoinFailed :
    StartJoin config <> [] ->
    Served logGate
      (map (fun addr => EvContact addr false) (StartJoin config)
       ++ uiError u (joinError E (StartJoin config)))%list 1
| ServedServiceFailed contacts done s rest err :
    Joined contacts ->
    Services config = (done ++ s :: rest)%list ->
    Served logGate
      (contacts ++ map okService done
       ++ failedService s err :: uiError u (serviceMessage s err))%list 1
| ServedCheckFailed contacts done c rest err :
    Joined contacts ->
    Checks config = (done ++ c :: rest)%list ->
    Served logGate
      (contacts ++ map okService (Services config)
       ++ map (okCheck (NodeName config)) done
       ++ failedCheck (NodeName config) c err :: uiError u (checkMessage c err))%list 1
| ServedRan contacts code :
    Joined contacts ->
    Served logGate
      (contacts ++ map okService (Services config)
       ++ map (okCheck (NodeName config)) (Checks config)
       ++ EvStartSync :: bannerEvents u config
       ++ [EvFlush logGate; EvHandleSignals code])%list code.

(** How a trace and the value returned go together: either 1 was returned
    without the signal handler being called, or the value is what the
    signal handler returned, nothing fatal came before it and only the
    deferred shutdowns came after it. *)
Definition exitRule (evs : list (Event T)) (code : Z) : Prop :=
  (code = 1 /\ forall ev, In ev evs -> kind ev <> KSignals) \/
  (exists pre down,
      evs = (pre ++ EvHandleSignals code :: down)%list /\
      (forall ev, In ev pre -> kind ev <> KSignals /\ fatal ev = false) /\
      (forall ev, In ev down -> kind ev = KShutdown)).

(** Every path of [RunFrom]. *)
Inductive RunOutcome : list (Event T) -> Z -> Prop :=
| OutNoLogWriter warn g lo :
    Warned warn ->
    RunOutcome (warn ++ [EvSetupLoggers g None lo])%list 1
| OutStatsiteFailed warn g lw lo inm err :
    Warned warn ->
    StatsiteAddr config <> "" ->
    RunOutcome
      (warn ++ EvSetupLoggers g (Some lw) lo :: inmemEvents inm
       ++ EvNewStatsiteSink (StatsiteAddr config) (Err err)
          :: uiError u ("Failed to start statsite sink. Got: " ++ err))%list 1
| OutSetupFailed warn g lw lo inm tele err a rpc http :
    Warned warn ->
    Telemetry inm tele ->
    RunOutcome
      (warn ++ EvSetupLoggers g (Some lw) lo :: inmemEvents inm ++ tele
       ++ [EvSetupAgent (SetupFailed err a rpc http)])%list 1
| OutStarted warn g lw lo inm tele a rpc http served code down :
    Warned warn ->
    Telemetry inm tele ->
    Served g served code ->
    released a rpc http down ->
    RunOutcome
      (warn ++ EvSetupLoggers g (Some lw) lo :: inmemEvents inm ++ tele
       ++ EvSetupAgent (SetupOk a rpc http) :: served ++ down)%list code.

End Shapes.

(** ** The rest of the command *)

(** [Synopsis]. *)
Definition Synopsis : string := "".

(** [setupLogger]: it returns [nil] for every configuration. *)
Definition setupLogger {T : Carriers} (config : Config T) : option unit := None.

(** ** The order of the calls *)

From Stdlib Require Import Sorted.

(** The place of a collaborator's calls in a run, in the order of the
    statements of [readConfig] and [Run]; the user interface is called
    throughout and has no place of its own. *)
Definition phase (k : Kind) : nat :=
  match k with
  | KStderr => 0
  | KUi => 0
  | KHostname => 1
  | KLoggers => 2
  | KMetrics => 3
  | KSetupAgent => 4
  | KContact => 5
  | KAddService => 6
  | KAddCheck => 7
  | KStartSync => 8
  | KFlush => 9
  | KSignals => 10
  | KShutdown => 11
  end.

(** Two events may follow each other in this order. *)
Definition inOrder {T : Carriers} (ev1 ev2 : Event T) : Prop :=
  kind ev1 = KUi \/ kind ev2 = KUi \/ (phase (kind ev1) <= phase (kind ev2))%nat.

(** A stretch of a run: in order, and with its calls between the places
    [lo] and [hi]. *)
Definition stretch {T : Carriers} (lo hi : nat) (l : list (Event T)) : Prop :=
  (lo <= hi)%nat /\
  StronglySorted inOrder l /\
  (forall ev, In ev l -> kind ev = KUi \/ (lo <= phase (kind ev) <= hi)%nat).

(** ** What a run does to the command *)

(** The command [c'] has the user interface, the arguments and the
    version information of [c]. *)
Definition sameCommand {T : Carriers} (c c' : ServiceCommand.t T) : Prop :=
  ServiceCommand.Ui c' = ServiceCommand.Ui c /\
  ServiceCommand.args c' = ServiceCommand.args c /\
  ServiceCommand.Revision c' = ServiceCommand.Revision c /\
  ServiceCommand.Version c' = ServiceCommand.Version c /\
  ServiceCommand.VersionPrerelease c' = ServiceCommand.VersionPrerelease c.

(** ** Two more scripted environments *)

Module Scripts.



End Scripts.

(** ** Proofs *)

Section Proofs.
Context {T : Carriers}.
Variable E : Collaborators T.

Lemma UiError_eq (R : Type) (m : string) (st : St T) :
  UiError (R := R) m st = (uiError (ServiceCommand.Ui (self st)) m, st, Next tt).
Proof. reflexivity. Qed.

Lemma UiOutput_eq (R : Type) (m : string) (st : St T) :
  UiOutput (R := R) m st = (uiOutput (ServiceCommand.Ui (self st)) m, st, Next tt).
Proof. reflexivity. Qed.

Lemma UiInfo_eq (R : Type) (m : string) (st : St T) :
  UiInfo (R := R) m st = (uiInfo (ServiceCommand.Ui (self st)) m, st, Next tt).
Proof. reflexivity. Qed.

Lemma withWorld_id (st : St T) : withWorld st (world st) = st.
Proof. destruct st; reflexivity. Qed.

Lemma withWorld_twice (st : St T) w1 w2 : withWorld (withWorld st w1) w2 = withWorld st w2.
Proof. reflexivity. Qed.

Lemma bind_perform (R A B : Type) (op : World T -> A * World T) (ev : A -> Event T)
  (k : A -> M T R B) (st : St T) (a : A) (w : World T) :
  op (world st) = (a, w) ->
  bind (perform op ev) k st
  = match k a (withWorld st w) with
    | (evs, st2, r) => (ev a :: evs, st2, r)
    end.
Proof. intros H. unfold bind, perform. rewrite H. reflexivity. Qed.

Lemma bind_performU (R B : Type) (op : World T -> World T) (ev : Event T)
  (k : unit -> M T R B) (st : St T) :
  bind (performU op ev) k st
  = match k tt (withWorld st (op (world st))) with
    | (evs, st2, r) => (ev :: evs, st2, r)
    end.
Proof. reflexivity. Qed.

Lemma bind_UiError (R B : Type) (m : string) (k : unit -> M T R B) (st : St T) :
  bind (UiError m) k st
  = match k tt st with
    | (evs, st2, r) => ((uiError (ServiceCommand.Ui (self st)) m ++ evs)%list, st2, r)
    end.
Proof. reflexivity. Qed.

Lemma bind_getSelf (R B : Type) (k : ServiceCommand.t T -> M T R B) (st : St T) :
  bind getSelf k st = k (self st) st.
Proof. unfold bind, getSelf. now destruct (k (self st) st) as [[evs st2] r]. Qed.

Lemma bind_setSelf (R B : Type) (c : ServiceCommand.t T) (k : unit -> M T R B) (st : St T) :
  bind (setSelf c) k st = k tt {| world := world st; self := c; deferred := deferred st |}.
Proof.
  unfold bind, setSelf.
  now destruct (k tt {| world := world st; self := c; deferred := deferred st |}) as [[evs st2] r].
Qed.

Lemma bind_emitAll (R B : Type) (evs : list (Event T)) (k : unit -> M T R B) (st : St T) :
  bind (emitAll evs) k st
  = match k tt st with
    | (evs', st2, r) => ((evs ++ evs')%list, st2, r)
    end.
Proof. reflexivity. Qed.

Lemma reachedCount_nonneg results : 0 <= reachedCount results.
Proof. induction results as [|b rest IH]; simpl; [lia | destruct b; lia]. Qed.

Lemma join_spec (R : Type) (addrs : list string) (st : St T) :
  exists results w',
    List.length results = List.length addrs /\
    join E (R := R) addrs st
    = (contactEvents addrs results, withWorld st w', Next (reachedCount results)).
Proof.
  revert st. induction addrs as [|addr rest IH]; intros st.
  - exists [], (world st). split; [reflexivity|].
    simpl. unfold ret. now rewrite withWorld_id.
  - simpl. unfold bind at 1. unfold perform at 1.
    destruct (contact E addr (world st)) as [reached w1] eqn:Hc.
    specialize (IH {| world := w1; self := self st; deferred := deferred st |}).
    destruct IH as (results & w' & Hlen & Hj).
    exists (reached :: results), w'. split; [simpl; now rewrite Hlen|].
    unfold bind. rewrite Hj. unfold ret. simpl. now rewrite app_nil_r.
Qed.


Lemma reachedCount_zero (addrs : list string) (results : list bool) :
  List.length results = List.length addrs ->
  reachedCount results = 0 ->
  contactEvents (T := T) addrs results = map (fun addr => EvContact addr false) addrs.
Proof.
  revert results. induction addrs as [|addr rest IH]; intros [|b results] Hlen Hz;
    try discriminate; try reflexivity.
  simpl in Hz. pose proof (reachedCount_nonneg results) as Hn.
  destruct b; [lia|].
  unfold contactEvents in *. simpl. f_equal. apply IH; [now injection Hlen | lia].
Qed.

Lemma reachedCount_pos (addrs : list string) (results : list bool) :
  List.length results = List.length addrs ->
  reachedCount results <> 0 ->
  exists addr, In (EvContact addr true) (contactEvents (T := T) addrs results).
Proof.
  revert results. induction addrs as [|addr rest IH]; intros [|b results] Hlen Hz;
    try discriminate; try (now elim Hz).
  destruct b.
  - exists addr. now left.
  - destruct (IH results) as [a Ha]; [now injection Hlen | exact Hz |].
    exists a. now right.
Qed.

Lemma startupJoin_spec (R : Type) (config : Config T) (st : St T) :
  exists evs w' err,
    startupJoin E (R := R) config st = (evs, withWorld st w', Next err) /\
    ((err = None /\ Joined config evs) \/
     (err = Some (joinError E (StartJoin config)) /\ StartJoin config <> [] /\
      evs = map (fun addr => EvContact addr false) (StartJoin config))).
Proof.
  unfold startupJoin.
  destruct (StartJoin config) as [|addr rest] eqn:Hs.
  - exists [], (world st), None. simpl. unfold ret. rewrite withWorld_id.
    split; [reflexivity|]. left. split; [reflexivity|]. now apply JoinSkipped.
  - cbn [List.length Nat.eqb].
    destruct (join_spec R (addr :: rest) st) as (results & w' & Hlen & Hj).
    destruct (Z.eq_dec (reachedCount results) 0) as [Hz|Hz].
    + exists (contactEvents (addr :: rest) results), w', (Some (joinError E (addr :: rest))).
      split.
      * unfold bind. rewrite Hj. rewrite Hz. unfold ret. simpl. now rewrite app_nil_r.
      * right. split; [reflexivity|]. split; [discriminate|].
        now apply reachedCount_zero.
    + exists (contactEvents (addr :: rest) results), w', None.
      split.
      * unfold bind. rewrite Hj. apply Z.eqb_neq in Hz. rewrite Hz. unfold ret. simpl.
        now rewrite app_nil_r.
      * left. split; [reflexivity|].
        destruct (reachedCount_pos (addr :: rest) results Hlen Hz) as [a Ha].
        rewrite <- Hs in *. now apply JoinReached with (addr := a).
Qed.

Lemma registerServices_spec (services : list (ServiceDefinition T)) (st : St T) :
  exists w',
    registerServices E services st = (map okService services, withWorld st w', Next tt) \/
    exists done s rest err,
      services = (done ++ s :: rest)%list /\
      registerServices E services st
      = ((map okService done
          ++ failedService s err :: uiError (ServiceCommand.Ui (self st)) (serviceMessage s err))%list,
         withWorld st w', Return 1).
Proof.
  revert st. induction services as [|s rest IH]; intros st.
  - exists (world st). left. simpl. unfold ret. now rewrite withWorld_id.
  - cbn [registerServices].
    destruct (AddService E (serviceNodeService T s) (serviceCheckType T s) (world st))
      as [[err|] w1] eqn:Ha; (erewrite bind_perform; [|exact Ha]).
    + exists w1. right. exists [], s, rest, err. split; [reflexivity|].
      rewrite bind_UiError. unfold returnWith. now rewrite app_nil_r.
    + destruct (IH (withWorld st w1))
        as [w' [Hok | (done & s' & rest' & err & Hl & Hr)]].
      * exists w'. left. rewrite Hok. reflexivity.
      * exists w'. right. exists (s :: done), s', rest', err.
        split; [now rewrite Hl|]. rewrite Hr. reflexivity.
Qed.

Lemma registerChecks_spec (node : string) (checks : list (CheckDefinition T)) (st : St T) :
  exists w',
    registerChecks E node checks st = (map (okCheck node) checks, withWorld st w', Next tt) \/
    exists done c rest err,
      checks = (done ++ c :: rest)%list /\
      registerChecks E node checks st
      = ((map (okCheck node) done
          ++ failedCheck node c err :: uiError (ServiceCommand.Ui (self st)) (checkMessage c err))%list,
         withWorld st w', Return 1).
Proof.
  revert st. induction checks as [|c rest IH]; intros st.
  - exists (world st). left. simpl. unfold ret. now rewrite withWorld_id.
  - cbn [registerChecks].
    destruct (AddCheck E (checkHealthCheck T c node) (checkCheckType T c) (world st))
      as [[err|] w1] eqn:Ha; (erewrite bind_perform; [|exact Ha]).
    + exists w1. right. exists [], c, rest, err. split; [reflexivity|].
      rewrite bind_UiError. unfold returnWith. now rewrite app_nil_r.
    + destruct (IH (withWorld st w1))
        as [w' [Hok | (done & c' & rest' & err & Hl & Hr)]].
      * exists w'. left. rewrite Hok. reflexivity.
      * exists w'. right. exists (c :: done), c', rest', err.
        split; [now rewrite Hl|]. rewrite Hr. reflexivity.
Qed.

Lemma banner_eq (config : Config T) (st : St T) :
  banner config st = (bannerEvents (ServiceCommand.Ui (self st)) config, st, Next tt).
Proof.
  unfold banner, bannerEvents, bind. rewrite !UiOutput_eq, !UiInfo_eq. reflexivity.
Qed.


Lemma checkGOMAXPROCS_spec (st : St T) :
  exists warn,
    Warned (ServiceCommand.Ui (self st)) warn /\
    checkGOMAXPROCS E st = (warn, st, Next tt).
Proof.
  unfold checkGOMAXPROCS, bind, readWorld.
  destruct (GOMAXPROCS E (world st) =? 1).
  - eexists. split; [apply Warning|]. rewrite UiError_eq. reflexivity.
  - exists []. split; [apply NoWarning | reflexivity].
Qed.

Lemma setupTelemetry_spec (config : Config T) (st : St T) :
  exists inm w',
    (exists tele,
        Telemetry E config inm tele /\
        setupTelemetry E config st = ((inmemEvents inm ++ tele)%list, withWorld st w', Next tt)) \/
    (exists err,
        StatsiteAddr config <> "" /\
        setupTelemetry E config st
        = ((inmemEvents inm
            ++ EvNewStatsiteSink (StatsiteAddr config) (Err err)
               :: uiError (ServiceCommand.Ui (self st))
                    ("Failed to start statsite sink. Got: " ++ err))%list,
           withWorld st w', Return 1)).
Proof.
  unfold setupTelemetry.
  destruct (NewInmemSink E (10 * Second) Minute (world st)) as [inm w1] eqn:Hi.
  erewrite bind_perform; [|exact Hi]. rewrite bind_performU.
  exists inm.
  destruct (String.eqb_spec (StatsiteAddr config) "") as [Hs|Hs]; cbn [negb].
  - eexists. left. eexists. split; [now apply TeleInmem|]. reflexivity.
  - destruct (NewStatsiteSink E (StatsiteAddr config)
                (world (withWorld (withWorld st w1) (DefaultInmemSignal E inm w1))))
      as [[sink|err] w2] eqn:Hn; (erewrite bind_perform; [|exact Hn]).
    + eexists. left. eexists. split; [now apply TeleFanout|]. reflexivity.
    + exists w2. right. exists err. split; [exact Hs|].
      rewrite bind_UiError. unfold returnWith. cbn [self withWorld].
      now rewrite app_nil_r.
Qed.

Lemma createAgent_spec (config : Config T) (lo : LogOutput T) (lw : LogWriter T) (st : St T) :
  exists st',
    ServiceCommand.Ui (self st') = ServiceCommand.Ui (self st) /\
    ((exists err a rpc http,
         createAgent E config lo lw st
         = ([EvSetupAgent (SetupFailed err a rpc http)], st', Return 1) /\
         deferred st' = deferred st) \/
     (exists a rpc http,
         createAgent E config lo lw st = ([EvSetupAgent (SetupOk a rpc http)], st', Next tt) /\
         deferred st' = (shutdownStack a rpc http ++ deferred st)%list)).
Proof.
  unfold createAgent.
  destruct (setupAgent E config lo lw (world st)) as [[a rpc http|err a rpc http] w1] eqn:Hs;
    (erewrite bind_perform; [|exact Hs]).
  - destruct rpc as [r|], http as [h|]; eexists; (split; [|right; exists a; eexists; eexists;
      split; [reflexivity|]; reflexivity]); reflexivity.
  - eexists. split; [|left; exists err, a, rpc, http; split; reflexivity]. reflexivity.
Qed.

Lemma joinStartupNodes_spec (config : Config T) (st : St T) :
  exists w',
    (exists evs,
        Joined config evs /\
        joinStartupNodes E config st = (evs, withWorld st w', Next tt)) \/
    (StartJoin config <> [] /\
     joinStartupNodes E config st
     = ((map (fun addr => EvContact addr false) (StartJoin config)
         ++ uiError (ServiceCommand.Ui (self st)) (joinError E (StartJoin config)))%list,
        withWorld st w', Return 1)).
Proof.
  destruct (startupJoin_spec (option error) config st) as (evs & w' & err & Hj & Hcase).
  exists w'. unfold joinStartupNodes, bind, call. rewrite Hj.
  destruct Hcase as [[-> HJ] | (-> & Hne & ->)].
  - left. exists evs. split; [exact HJ|]. unfold ret. now rewrite app_nil_r.
  - right. split; [exact Hne|]. rewrite UiError_eq. unfold returnWith.
    cbn [self withWorld]. now rewrite app_nil_r.
Qed.


Lemma serve_spec (config : Config T) (g : LogGate T) (st : St T) :
  exists evs w' code,
    serve E config g st = (evs, withWorld st w', Return code) /\
    Served E config (ServiceCommand.Ui (self st)) g evs code.
Proof.
  unfold serve.
  destruct (joinStartupNodes_spec config st) as [w1 [(contacts & HJ & Hj) | (Hne & Hj)]];
    unfold bind at 1; rewrite Hj.
  2:{ do 3 eexists. split; [reflexivity|]. now apply ServedJoinFailed. }
  destruct (registerServices_spec (Services config) (withWorld st w1))
    as [w2 [Hs | (done & s & rest & err & Hl & Hs)]];
    unfold bind at 1; rewrite Hs.
  2:{ do 3 eexists. split; [reflexivity|]. now apply ServedServiceFailed with (rest := rest). }
  destruct (registerChecks_spec (NodeName config) (Checks config)
              (withWorld (withWorld st w1) w2))
    as [w3 [Hc | (done & c & rest & err & Hl & Hc)]];
    unfold bind at 1; rewrite Hc.
  2:{ do 3 eexists. split; [reflexivity|]. now apply ServedCheckFailed with (rest := rest). }
  rewrite bind_performU. unfold bind at 1. rewrite banner_eq. rewrite bind_performU.
  match goal with
  | |- context [perform (handleSignals E config) _] =>
      match goal with
      | |- context [bind _ _ ?s] =>
          destruct (handleSignals E config (world s)) as [code w4] eqn:Hh
      end
  end.
  erewrite bind_perform; [|exact Hh].
  do 3 eexists. split; [reflexivity|].
  cbn [self withWorld]. now apply ServedRan.
Qed.

Lemma runDeferred_shutdownStack (a : Agent T) (rpc : option (RPCServer T))
  (http : option (HTTPServer T)) (w : World T) :
  exists down w',
    runDeferred E (shutdownStack a rpc http) w = (down, w') /\
    released a rpc http down.
Proof.
  unfold shutdownStack, released.
  destruct http as [h|], rpc as [r|]; cbn [app runDeferred runOne].
  - destruct (httpShutdown E h w) as [eh w1].
    destruct (rpcShutdown E r w1) as [er w2].
    destruct (agentShutdown E a w2) as [ea w3].
    do 2 eexists. split; [reflexivity|]. now exists eh, er, ea.
  - destruct (httpShutdown E h w) as [eh w1].
    destruct (agentShutdown E a w1) as [ea w3].
    do 2 eexists. split; [reflexivity|]. now exists eh, None, ea.
  - destruct (rpcShutdown E r w) as [er w2].
    destruct (agentShutdown E a w2) as [ea w3].
    do 2 eexists. split; [reflexivity|]. now exists None, er, ea.
  - destruct (agentShutdown E a w) as [ea w3].
    do 2 eexists. split; [reflexivity|]. now exists None, None, ea.
Qed.

Lemma RunBodyFrom_serve (config : Config T) :
  RunBodyFrom E config
  = bind (checkGOMAXPROCS E) (fun _ =>
      bind (perform (setupLoggers E config)
              (fun l => EvSetupLoggers (fst (fst l)) (snd (fst l)) (snd l)))
        (fun loggers =>
           match snd (fst loggers) with
           | None => returnWith 1
           | Some logWriter =>
               bind (setupTelemetry E config) (fun _ =>
                 bind (createAgent E config (snd loggers) logWriter) (fun _ =>
                   serve E config (fst (fst loggers))))
           end)).
Proof. reflexivity. Qed.

Lemma RunOutcome_eq (config : Config T) (u : Ui) (l l' : list (Event T)) (code : Z) :
  RunOutcome E config u l code -> l = l' -> RunOutcome E config u l' code.
Proof. now intros H <-. Qed.

Lemma RunFrom_outcome (config : Config T) (c : ServiceCommand.t T) (w : World T) :
  forall evs w' c' code,
    RunFrom E config c w = (evs, w', c', code) ->
    RunOutcome E config (ServiceCommand.Ui c) evs code.
Proof.
  intros evs w' c' code. unfold RunFrom, runFunction. rewrite RunBodyFrom_serve.
  set (st0 := {| world := w; self := c; deferred := [] |}).
  change (ServiceCommand.Ui c) with (ServiceCommand.Ui (self st0)).
  destruct (checkGOMAXPROCS_spec st0) as (warn & Hw & Hg).
  unfold bind at 1. rewrite Hg.
  destruct (setupLoggers E config (world st0)) as [[[g lw] lo] w1] eqn:Hl.
  erewrite bind_perform; [|exact Hl]. cbn [fst snd].
  destruct lw as [lw|].
  2:{ unfold returnWith. cbn. intros H. injection H as <- _ _ <-.
      rewrite app_nil_r. now apply OutNoLogWriter. }
  destruct (setupTelemetry_spec config (withWorld st0 w1))
    as (inm & w2 & [(tele & HT & Ht) | (err & Hne & Ht)]);
    unfold bind at 1; rewrite Ht.
  2:{ cbn. intros H. injection H as <- _ _ <-. rewrite app_nil_r.
      now apply OutStatsiteFailed. }
  destruct (createAgent_spec config lo lw (withWorld (withWorld st0 w1) w2))
    as (st3 & Hui & [(err & a & rpc & http & Hc & Hd) | (a & rpc & http & Hc & Hd)]);
    unfold bind at 1; rewrite Hc.
  - rewrite Hd. cbn. intros H. injection H as <- _ _ <-. rewrite app_nil_r.
    exact (OutSetupFailed (E := E) (config := config) g lw lo err a rpc http Hw HT).
  - destruct (serve_spec config g st3) as (served & w4 & code' & Hs & HS).
    rewrite Hs. cbn [deferred withWorld world self]. rewrite Hd. cbn [deferred withWorld app].
    rewrite app_nil_r.
    destruct (runDeferred_shutdownStack a rpc http w4) as (down & w5 & Hr & HR).
    rewrite Hr. intros H. injection H as <- _ _ <-.
    rewrite Hui in HS. cbn [self withWorld] in HS.
    eapply RunOutcome_eq; [exact (OutStarted (E := E) lw lo Hw HT HS HR)|].
    rewrite <- !app_assoc. cbn [app]. rewrite <- !app_assoc. reflexivity.
Qed.


Lemma defaultNodeName_spec (config : Config T) (st : St T) :
  NodeName config = "" ->
  (forall h w1, osHostname E (world st) = (Ok h, w1) ->
     defaultNodeName E config st
     = ([EvHostname (Ok h)], withWorld st w1, Next (setNodeName h config))) /\
  (forall e w1, osHostname E (world st) = (Err e, w1) ->
     defaultNodeName E config st
     = (EvHostname (Err e)
          :: uiError (ServiceCommand.Ui (self st)) ("Error determining hostname: " ++ e),
        withWorld st w1, Return None)).
Proof.
  intros Hn. unfold defaultNodeName. rewrite Hn. cbn [String.eqb].
  split; intros x w1 Hh; (erewrite bind_perform; [|exact Hh]).
  - reflexivity.
  - cbv beta iota. rewrite bind_UiError. unfold returnWith. cbn [self withWorld]. now rewrite app_nil_r.
Qed.

Lemma readConfig_spec (st : St T) :
  (exists perr,
      Flag.Parse cmdFlags (zeroConfig T) (ServiceCommand.args (self st)) = inl perr /\
      readConfig E st
      = ((match Flag.printed perr with Some line => [EvStderr line] | None => [] end)
         ++ uiOutput (ServiceCommand.Ui (self st)) Help, st, Return None)%list) \/
  (exists cmdConfig,
      Flag.Parse cmdFlags (zeroConfig T) (ServiceCommand.args (self st)) = inr cmdConfig /\
      ((exists e w1,
           osHostname E (world st) = (Err e, w1) /\
           readConfig E st
           = (EvHostname (Err e)
                :: uiError (ServiceCommand.Ui (self st)) ("Error determining hostname: " ++ e),
              withWorld st w1, Return None)) \/
       (exists h w1,
           osHostname E (world st) = (Ok h, w1) /\
           readConfig E st
           = ([EvHostname (Ok h)], withWorld st w1, Return (Some (resolved (self st) h)))))).
Proof.
  unfold readConfig. rewrite bind_getSelf.
  destruct (Flag.Parse cmdFlags (zeroConfig T) (ServiceCommand.args (self st)))
    as [perr|cmdConfig].
  - left. exists perr. split; [reflexivity|].
    rewrite bind_emitAll. unfold bind. rewrite UiOutput_eq. unfold returnWith.
    now rewrite app_nil_r.
  - right. exists cmdConfig. split; [reflexivity|].
    destruct (defaultNodeName_spec (DefaultConfig T) st eq_refl) as [Hok Herr].
    destruct (osHostname E (world st)) as [[h|e] w1] eqn:Hh.
    + right. exists h, w1. split; [reflexivity|].
      cbv beta iota zeta. unfold bind at 1. rewrite (Hok h w1 eq_refl). reflexivity.
    + left. exists e, w1. split; [reflexivity|].
      cbv beta iota zeta. unfold bind at 1. rewrite (Herr e w1 eq_refl). reflexivity.
Qed.

Lemma Run_cases (args : list string) (c : ServiceCommand.t T) (w : World T) :
  (exists perr,
      Flag.Parse cmdFlags (zeroConfig T) args = inl perr /\
      Run E args c w
      = ((match Flag.printed perr with Some line => [EvStderr line] | None => [] end)
         ++ uiOutput (ServiceCommand.Ui (entered args c)) Help, w, entered args c, 1)%list) \/
  (exists cmdConfig,
      Flag.Parse cmdFlags (zeroConfig T) args = inr cmdConfig /\
      ((exists e w1,
           osHostname E w = (Err e, w1) /\
           Run E args c w
           = (EvHostname (Err e)
                :: uiError (ServiceCommand.Ui (entered args c)) ("Error determining hostname: " ++ e),
              w1, entered args c, 1)) \/
       (exists h w1,
           osHostname E w = (Ok h, w1) /\
           Run E args c w
           = match RunFrom E (resolved (entered args c) h) (entered args c) w1 with
             | (evs, w', c', code) => (EvHostname (Ok h) :: evs, w', c', code)
             end))).
Proof.
  set (st1 := {| world := w; self := entered args c; deferred := [] |}).
  assert (Hrun : forall X,
             runFunction E (bind (call (readConfig E)) (fun config =>
                 match config with
                 | None => returnWith 1
                 | Some config =>
                     bind getSelf (fun c0 =>
                       bind (setSelf (setArgs args c0)) (fun _ => RunBodyFrom E config))
                 end)) (entered args c) w = X ->
             Run E args c w = X).
  { intros X <-. unfold Run, runFunction, RunBody.
    now rewrite bind_getSelf, bind_setSelf, bind_getSelf, bind_setSelf. }
  destruct (readConfig_spec st1)
    as [(perr & Hp & Hr) | (cmdConfig & Hp & [(e & w1 & Hh & Hr) | (h & w1 & Hh & Hr)])].
  - left. exists perr. split; [exact Hp|]. apply Hrun.
    unfold runFunction. fold st1. unfold bind, call. rewrite Hr.
    unfold returnWith. cbn. now rewrite !app_nil_r.
  - right. exists cmdConfig. split; [exact Hp|]. left. exists e, w1. split; [exact Hh|].
    apply Hrun. unfold runFunction. fold st1. unfold bind, call. rewrite Hr.
    unfold returnWith. cbn. now rewrite !app_nil_r.
  - right. exists cmdConfig. split; [exact Hp|]. right. exists h, w1. split; [exact Hh|].
    apply Hrun. unfold runFunction. fold st1. unfold bind at 1, call. rewrite Hr.
    rewrite bind_getSelf, bind_setSelf. cbn [world self deferred withWorld st1].
    unfold RunFrom, runFunction.
    assert (Hc : setArgs args (entered args c) = entered args c) by reflexivity.
    rewrite Hc.
    destruct (RunBodyFrom E (resolved (entered args c) h)
                {| world := w1; self := entered args c; deferred := [] |}) as [[evs st2] r].
    destruct (runDeferred E (deferred st2) (world st2)) as [devs w2]. reflexivity.
Qed.


(** *** What the segments of a trace contain *)

Lemma uiError_kind (u : Ui) (m : string) (ev : Event T) :
  In ev (uiError u m) -> kind ev = KUi /\ fatal ev = false.
Proof.
  revert m. induction u as [|o i e inner IH]; intros m H.
  - destruct H as [<-|[]]. now split.
  - exact (IH _ H).
Qed.

Lemma uiOutput_kind (u : Ui) (m : string) (ev : Event T) :
  In ev (uiOutput u m) -> kind ev = KUi /\ fatal ev = false.
Proof.
  revert m. induction u as [|o i e inner IH]; intros m H.
  - destruct H as [<-|[]]. now split.
  - exact (IH _ H).
Qed.

Lemma uiInfo_kind (u : Ui) (m : string) (ev : Event T) :
  In ev (uiInfo u m) -> kind ev = KUi /\ fatal ev = false.
Proof.
  revert m. induction u as [|o i e inner IH]; intros m H.
  - destruct H as [<-|[]]. now split.
  - exact (IH _ H).
Qed.

Lemma Warned_kind (u : Ui) (warn : list (Event T)) (ev : Event T) :
  Warned u warn -> In ev warn -> kind ev = KUi /\ fatal ev = false.
Proof. intros [|] H; [destruct H | exact (uiError_kind _ _ _ H)]. Qed.

Lemma inmemEvents_kind (inm : InmemSink T) (ev : Event T) :
  In ev (inmemEvents inm) -> kind ev = KMetrics /\ fatal ev = false.
Proof. intros [<-|[<-|[]]]; now split. Qed.

Lemma Telemetry_kind (config : Config T) (inm : InmemSink T) (tele : list (Event T))
  (ev : Event T) :
  Telemetry E config inm tele -> In ev tele -> kind ev = KMetrics /\ fatal ev = false.
Proof. intros [Hs|sink Hs] H; simpl in H; intuition (subst; now split). Qed.

Lemma contactEvents_kind (addrs : list string) (results : list bool) (ev : Event T) :
  In ev (contactEvents addrs results) -> kind ev = KContact /\ fatal ev = false.
Proof.
  unfold contactEvents. intros H. apply in_map_iff in H. destruct H as (p & <- & _). now split.
Qed.

Lemma unreached_kind (addrs : list string) (ev : Event T) :
  In ev (map (fun addr => EvContact addr false) addrs) ->
  kind ev = KContact /\ fatal ev = false.
Proof. intros H. apply in_map_iff in H. destruct H as (p & <- & _). now split. Qed.

Lemma Joined_kind (config : Config T) (contacts : list (Event T)) (ev : Event T) :
  Joined config contacts -> In ev contacts -> kind ev = KContact /\ fatal ev = false.
Proof. intros [Hs|results addr Hl Hin] H; [destruct H | exact (contactEvents_kind _ _ _ H)]. Qed.

Lemma okService_kind (services : list (ServiceDefinition T)) (ev : Event T) :
  In ev (map okService services) -> kind ev = KAddService /\ fatal ev = false.
Proof. intros H. apply in_map_iff in H. destruct H as (p & <- & _). now split. Qed.

Lemma okCheck_kind (node : string) (checks : list (CheckDefinition T)) (ev : Event T) :
  In ev (map (okCheck node) checks) -> kind ev = KAddCheck /\ fatal ev = false.
Proof. intros H. apply in_map_iff in H. destruct H as (p & <- & _). now split. Qed.

Lemma bannerEvents_kind (u : Ui) (config : Config T) (ev : Event T) :
  In ev (bannerEvents u config) -> kind ev = KUi /\ fatal ev = false.
Proof.
  unfold bannerEvents. intros H.
  repeat (apply in_app_or in H; destruct H as [H|H];
          [first [exact (uiOutput_kind _ _ _ H) | exact (uiInfo_kind _ _ _ H)]|]).
  exact (uiOutput_kind _ _ _ H).
Qed.

Lemma released_kind (a : Agent T) (rpc : option (RPCServer T)) (http : option (HTTPServer T))
  (down : list (Event T)) (ev : Event T) :
  released a rpc http down -> In ev down -> kind ev = KShutdown /\ fatal ev = false.
Proof.
  intros (eh & er & ea & ->) H.
  destruct http, rpc; simpl in H; intuition (subst; now split).
Qed.


Ltac in_split H :=
  match type of H with
  | In _ (_ ++ _)%list => apply in_app_or in H; destruct H as [H|H]; in_split H
  | In _ (_ :: _) => destruct H as [H|H]; [|in_split H]
  | In _ [] => destruct H
  | _ => idtac
  end.

Ltac seg_kind H :=
  first
    [ apply uiError_kind in H | apply uiOutput_kind in H | apply uiInfo_kind in H
    | eapply Warned_kind in H; [|eassumption]
    | apply inmemEvents_kind in H
    | eapply Telemetry_kind in H; [|eassumption]
    | apply contactEvents_kind in H | apply unreached_kind in H
    | eapply Joined_kind in H; [|eassumption]
    | apply okService_kind in H | apply okCheck_kind in H
    | apply bannerEvents_kind in H
    | eapply released_kind in H; [|eassumption] ].

(* [H : In ev l] read into either [ev = ...] (substituted) or the kind of [ev]. *)
Ltac ev_leaf H :=
  match type of H with
  | In _ _ =>
      seg_kind H; let Hk := fresh "Hk" in let Hf := fresh "Hf" in
      destruct H as [Hk Hf]; try rewrite Hk in *; try rewrite Hf in *
  | _ = _ => subst
  end;
  cbn [kind fatal servedKind] in *.

Ltac ev_facts H := in_split H; ev_leaf H.


Lemma Served_fatal (config : Config T) (u : Ui) (g : LogGate T) (served : list (Event T))
  (code : Z) (ev : Event T) :
  Served E config u g served code -> In ev served -> fatal ev = true -> code = 1.
Proof.
  intros HS H Hf. destruct HS; try reflexivity.
  ev_facts H; discriminate.
Qed.

Lemma Served_exit (config : Config T) (u : Ui) (g : LogGate T) (served : list (Event T))
  (code : Z) :
  Served E config u g served code ->
  (code = 1 /\ forall ev, In ev served -> kind ev <> KSignals) \/
  (exists init,
      served = (init ++ [EvHandleSignals code])%list /\
      forall ev, In ev init -> kind ev <> KSignals /\ fatal ev = false).
Proof.
  intros HS. destruct HS.
  1-3: left; split; [reflexivity|]; intros ev Hin;
       unfold failedService, failedCheck in Hin; ev_facts Hin; discriminate.
  right.
  exists (contacts ++ map okService (Services config)
          ++ map (okCheck (NodeName config)) (Checks config)
          ++ EvStartSync :: bannerEvents u config ++ [EvFlush g])%list.
  split.
  - rewrite <- !app_assoc. cbn [app]. rewrite <- !app_assoc. reflexivity.
  - intros ev Hin. ev_facts Hin; (split; [discriminate|reflexivity]).
Qed.


(* Finds the event in a list written with [::] and [++]. *)
Ltac in_find :=
  match goal with
  | |- In _ (_ :: _) => first [ left; reflexivity | right; in_find ]
  | |- In _ (_ ++ _)%list => apply in_or_app; first [ left; in_find | right; in_find ]
  | |- In _ _ => assumption
  end.








Lemma RunFrom_exit (config : Config T) (c : ServiceCommand.t T) (w : World T)
  (evs : list (Event T)) (w' : World T) (c' : ServiceCommand.t T) (code : Z) :
  RunFrom E config c w = (evs, w', c', code) ->
  exitRule evs code /\
  (forall ev, In ev evs -> fatal ev = true -> code = 1) /\
  (StartJoin config <> [] -> (forall addr, ~ In (EvContact addr true) evs) -> code = 1).
Proof.
  intros Hrun. apply RunFrom_outcome in Hrun.
  destruct Hrun as [warn g lo Hw | warn g lw lo inm err Hw Hne
                   | warn g lw lo inm tele err a0 rpc0 http0 Hw HT
                   | warn g lw lo inm tele a0 rpc0 http0 served code down Hw HT HS HR].
  1-3: split; [left; split; [reflexivity|]; intros ev H; unfold inmemEvents in H;
               in_split H;
               first [ subst ev; discriminate
                     | seg_kind H; destruct H as [Hk _]; rewrite Hk; discriminate ]
              | split; reflexivity ].
  split; [|split].
  - destruct (Served_exit HS) as [[-> Hno] | (init & -> & Hinit)].
    + left. split; [reflexivity|]. intros ev H. unfold inmemEvents in H.
      in_split H;
        first [ subst ev; discriminate
              | now apply Hno
              | seg_kind H; destruct H as [Hk _]; rewrite Hk; discriminate ].
    + right.
      exists (warn ++ EvSetupLoggers g (Some lw) lo :: inmemEvents inm ++ tele
              ++ EvSetupAgent (SetupOk a0 rpc0 http0) :: init)%list, down.
      split; [|split].
      * rewrite <- ?app_assoc. cbn [app]. rewrite <- ?app_assoc. cbn [app].
        rewrite <- ?app_assoc. reflexivity.
      * intros ev H. unfold inmemEvents in H.
        in_split H;
          first [ subst ev; split; [discriminate | reflexivity]
                | now apply Hinit
                | seg_kind H; destruct H as [Hk Hf]; rewrite Hk; split; [discriminate | exact Hf] ].
      * intros ev H. eapply released_kind in H; [|eassumption]. exact (proj1 H).
  - intros ev H Hf. unfold inmemEvents in H.
    in_split H;
      first [ subst ev; discriminate
            | eapply Served_fatal; eassumption
            | seg_kind H; destruct H as [_ Hf']; rewrite Hf in Hf'; discriminate ].
  - intros Hne Hnone. destruct HS as [Hs | | | contacts code HJ]; try reflexivity.
    exfalso. destruct HJ as [Hs | results addr Hl Hin]; [now elim Hne|].
    apply (Hnone addr). in_find.
Qed.





(** C2. [startupJoin] with an empty start-join list contacts nobody and
    lets [Run] go on; when a listed address was reached it returns no
    error and [Run] goes on to the registrations; when the list is not
    empty and no address was reached it returns the join error, the
    statement after it returns 1, and so does every run in which no
    address was reached. *)
Theorem startup_join_asymmetry (config : Config T) (st : St T) :
  (StartJoin config = [] ->
   startupJoin E (R := option error) config st = ([], st, Next None) /\
   joinStartupNodes E config st = ([], st, Next tt)) /\
  (forall evs st' err,
      startupJoin E (R := option error) config st = (evs, st', Next err) ->
      (exists addr, In (EvContact addr true) evs) ->
      err = None /\ joinStartupNodes E config st = (evs, st', Next tt)) /\
  (forall evs st' r,
      StartJoin config <> [] ->
      startupJoin E (R := option error) config st = (evs, st', r) ->
      (forall addr, ~ In (EvContact addr true) evs) ->
      evs = map (fun addr => EvContact addr false) (StartJoin config) /\
      r = Next (Some (joinError E (StartJoin config))) /\
      joinStartupNodes E config st
      = ((evs ++ uiError (ServiceCommand.Ui (self st)) (joinError E (StartJoin config)))%list,
         st', Return 1)) /\
  (forall c w evs w' c' code,
      RunFrom E config c w = (evs, w', c', code) ->
      StartJoin config <> [] ->
      (forall addr, ~ In (EvContact addr true) evs) ->
      code = 1).
Proof.
  split; [|split; [|split]].
  - intros Hs. unfold joinStartupNodes, bind, call, startupJoin. rewrite Hs. now split.
  - intros evs st' err Hj [addr Hin].
    destruct (startupJoin_spec (option error) config st) as (evs0 & w0 & err0 & Hj0 & Hcase).
    rewrite Hj0 in Hj. injection Hj as <- <- <-.
    destruct Hcase as [[-> HJ] | (-> & Hne & ->)].
    + split; [reflexivity|]. unfold joinStartupNodes, bind, call. rewrite Hj0.
      unfold ret. now rewrite app_nil_r.
    + exfalso. apply in_map_iff in Hin. destruct Hin as (x & Hx & _). discriminate Hx.
  - intros evs st' r Hne Hj Hnone.
    destruct (startupJoin_spec (option error) config st) as (evs0 & w0 & err0 & Hj0 & Hcase).
    rewrite Hj0 in Hj. injection Hj as <- <- <-.
    destruct Hcase as [[-> HJ] | (-> & _ & ->)].
    + exfalso. destruct HJ as [Hs | results addr Hl Hin]; [now elim Hne|].
      exact (Hnone addr Hin).
    + split; [reflexivity|]. split; [reflexivity|].
      unfold joinStartupNodes, bind, call. rewrite Hj0. rewrite UiError_eq. unfold returnWith.
      cbn [withWorld self]. now rewrite app_nil_r.
  - intros c w evs w' c' code Hrun Hne Hnone.
    destruct (RunFrom_exit _ _ _ Hrun) as (_ & _ & Hjoin). now apply Hjoin.
Qed.


(** C4. A configuration whose node name is empty gets the host name the
    operating system reports; when the lookup fails the error is reported
    and [readConfig] returns [nil].  As [DefaultConfig] leaves the node
    name empty and nothing is merged into it, this is what [readConfig]
    does whenever the flags parse: the configuration it returns carries
    the host name, and on a failed lookup it returns [nil], no
    configuration, and [Run] returns 1 right after the report. *)
Theorem node_name_defaults_to_hostname (args : list string) (c : ServiceCommand.t T)
  (w : World T) :
  (forall config st,
      NodeName config = "" ->
      (forall h w1,
          osHostname E (world st) = (Ok h, w1) ->
          defaultNodeName E config st
          = ([EvHostname (Ok h)], withWorld st w1, Next (setNodeName h config)) /\
          NodeName (setNodeName h config) = h) /\
      (forall e w1,
          osHostname E (world st) = (Err e, w1) ->
          defaultNodeName E config st
          = (EvHostname (Err e)
               :: uiError (ServiceCommand.Ui (self st)) ("Error determining hostname: " ++ e),
             withWorld st w1, Return None))) /\
  (forall cmdConfig,
      Flag.Parse cmdFlags (zeroConfig T) args = inr cmdConfig ->
      let st := {| world := w; self := entered args c; deferred := [] |} in
      (forall h w1,
          osHostname E w = (Ok h, w1) ->
          exists config,
            call (R' := Z) (readConfig E) st
            = ([EvHostname (Ok h)], withWorld st w1, Next (Some config)) /\
            NodeName config = h) /\
      (forall e w1,
          osHostname E w = (Err e, w1) ->
          call (R' := Z) (readConfig E) st
          = (EvHostname (Err e)
               :: uiError (ServiceCommand.Ui (entered args c)) ("Error determining hostname: " ++ e),
             withWorld st w1, Next None) /\
          Run E args c w
          = (EvHostname (Err e)
               :: uiError (ServiceCommand.Ui (entered args c)) ("Error determining hostname: " ++ e),
             w1, entered args c, 1))).
Proof.
  split.
  - intros config st Hn. destruct (defaultNodeName_spec config st Hn) as [Hok Herr].
    split; [intros h w1 Hh; split; [now apply Hok | reflexivity] | exact Herr].
  - intros cmdConfig Hp st.
    destruct (readConfig_spec st)
      as [(perr & Hp' & _) | (cmd & _ & [(e & w1 & Hh & Hr) | (h & w1 & Hh & Hr)])].
    { cbn [st self entered setArgs ServiceCommand.args] in Hp'. rewrite Hp in Hp'.
      discriminate Hp'. }
    + split; [intros h w2 Hh'; cbn [st world] in Hh; rewrite Hh' in Hh; discriminate Hh|].
      intros e' w2 Hh'. cbn [st world] in Hh. rewrite Hh' in Hh. injection Hh as <- <-.
      split; [unfold call; now rewrite Hr|].
      destruct (Run_cases args c w)
        as [(perr & Hp' & _) | (cmd' & _ & [(e & w1 & Hh & Hrun) | (h & w1 & Hh & _)])].
      * rewrite Hp in Hp'. discriminate Hp'.
      * rewrite Hh' in Hh. injection Hh as <- <-. exact Hrun.
      * rewrite Hh' in Hh. discriminate Hh.
    + split; [|intros e w2 Hh'; cbn [st world] in Hh; rewrite Hh' in Hh; discriminate Hh].
      intros h' w2 Hh'. cbn [st world] in Hh. rewrite Hh' in Hh. injection Hh as <- <-.
      exists (resolved (self st) h'). split; [unfold call; now rewrite Hr | reflexivity].
Qed.

(** C9. [DefaultConfig] has log level "INFO", bind address "0.0.0.0",
    HTTP port 8500 and server RPC port 8300, and every configuration
    [readConfig] returns still has these four values. *)
Theorem default_configuration_values (st : St T) :
  LogLevel (DefaultConfig T) = "INFO" /\
  BindAddr (DefaultConfig T) = "0.0.0.0" /\
  PortConfig.HTTP (Ports (DefaultConfig T)) = 8500 /\
  PortConfig.Server (Ports (DefaultConfig T)) = 8300 /\
  (forall evs st' config,
      call (R' := Z) (readConfig E) st = (evs, st', Next (Some config)) ->
      LogLevel config = "INFO" /\
      BindAddr config = "0.0.0.0" /\
      PortConfig.HTTP (Ports config) = 8500 /\
      PortConfig.Server (Ports config) = 8300).
Proof.
  repeat (split; [reflexivity|]).
  intros evs st' config Hc. unfold call in Hc.
  destruct (readConfig_spec st)
    as [(perr & _ & Hr) | (cmd & _ & [(e & w1 & _ & Hr) | (h & w1 & _ & Hr)])];
    rewrite Hr in Hc; try discriminate Hc.
  injection Hc as _ _ <-. now repeat split.
Qed.


(** *** More of [readConfig] and [Run] *)

Lemma uiOutput_empty (u : Ui) : uiOutput (T := T) u "" = [EvUiOutput ""].
Proof. induction u as [|o i e inner IH]; [reflexivity | exact IH]. Qed.

(** X5. When the command line does not parse, [Run] returns 1 without any
    call of a collaborator: the world is untouched, the flag set has
    printed its error (nothing for a help request), and the usage function
    has written the empty help text, which gets no prefix. *)
Theorem flag_error_stops_Run (args : list string) (c : ServiceCommand.t T) (w : World T)
  (perr : Flag.ParseError) :
  Flag.Parse cmdFlags (zeroConfig T) args = inl perr ->
  Run E args c w
  = ((match Flag.printed perr with Some line => [EvStderr line] | None => [] end)
     ++ [EvUiOutput ""], w, entered args c, 1)%list.
Proof.
  intros Hp.
  destruct (Run_cases args c w) as [(perr' & Hp' & Hr) | (cmdConfig & Hp' & _)];
    rewrite Hp in Hp'; [|discriminate Hp'].
  injection Hp' as <-. rewrite Hr. unfold Help. now rewrite uiOutput_empty.
Qed.


(** X8. What [readConfig] returns when it returns a configuration: the
    flags parsed, the host name lookup was its only call, and the
    configuration is [DefaultConfig] with the host name as node name and
    the revision, version and prerelease label of the command, whatever the
    flags said; it has no start-join address, service, check or statsite
    address. *)
Theorem readConfig_returns_stamped_defaults (st : St T) (evs : list (Event T)) (st' : St T)
  (config : Config T) :
  call (R' := Z) (readConfig E) st = (evs, st', Next (Some config)) ->
  (exists cmdConfig,
      Flag.Parse cmdFlags (zeroConfig T) (ServiceCommand.args (self st)) = inr cmdConfig) /\
  (exists h w1,
      osHostname E (world st) = (Ok h, w1) /\
      evs = [EvHostname (Ok h)] /\
      st' = withWorld st w1 /\
      config = setVersionInfo (ServiceCommand.Revision (self st))
                 (ServiceCommand.Version (self st))
                 (ServiceCommand.VersionPrerelease (self st))
                 (setNodeName h (DefaultConfig T)) /\
      NodeName config = h) /\
  Revision config = ServiceCommand.Revision (self st) /\
  Version config = ServiceCommand.Version (self st) /\
  VersionPrerelease config = ServiceCommand.VersionPrerelease (self st) /\
  StartJoin config = [] /\ Services config = [] /\ Checks config = [] /\
  StatsiteAddr config = "".
Proof.
  intros Hc. unfold call in Hc.
  destruct (readConfig_spec st)
    as [(perr & _ & Hr) | (cmd & Hp & [(e & w1 & _ & Hr) | (h & w1 & Hh & Hr)])];
    rewrite Hr in Hc; try discriminate Hc.
  injection Hc as <- <- <-.
  split; [now exists cmd|]. split; [|now repeat split].
  exists h, w1. now repeat split.
Qed.





Lemma quiet_by_kind (ev : Event T) :
  kind ev = KUi \/ kind ev = KStderr \/ kind ev = KHostname \/ kind ev = KLoggers
  \/ kind ev = KSetupAgent \/ kind ev = KShutdown \/ kind ev = KStartSync
  \/ kind ev = KFlush \/ kind ev = KSignals ->
  kind ev <> KContact /\ kind ev <> KAddService /\ kind ev <> KAddCheck /\
  (forall addr r, ev <> EvNewStatsiteSink addr r) /\
  (forall conf sink,
      ev = EvNewGlobal conf sink ->
      EnableHostname conf = false /\ exists inm, sink = Single (OfInmem inm)).
Proof.
  intros H. split; [|split; [|split; [|split]]].
  - intros Hk. rewrite Hk in H. intuition discriminate.
  - intros Hk. rewrite Hk in H. intuition discriminate.
  - intros Hk. rewrite Hk in H. intuition discriminate.
  - intros addr r ->. cbn in H. intuition discriminate.
  - intros conf sink ->. cbn in H. intuition discriminate.
Qed.

Lemma quiet_metrics (ev : Event T) (inm : InmemSink T) :
  ev = EvNewInmemSink (10 * Second) Minute inm \/ ev = EvDefaultInmemSignal inm
  \/ ev = EvNewGlobal (disableHostname (metricsDefaultConfig E "consul"))
            (Single (OfInmem inm)) ->
  kind ev <> KContact /\ kind ev <> KAddService /\ kind ev <> KAddCheck /\
  (forall addr r, ev <> EvNewStatsiteSink addr r) /\
  (forall conf sink,
      ev = EvNewGlobal conf sink ->
      EnableHostname conf = false /\ exists inm, sink = Single (OfInmem inm)).
Proof.
  intros [-> | [-> | ->]]; (split; [|split; [|split; [|split]]]); try discriminate;
    try (intros addr r; discriminate); intros conf sink Heq; try discriminate Heq.
  injection Heq as <- <-. split; [reflexivity | now exists inm].
Qed.

(** X4. A run started with [Run] works on the configuration [readConfig]
    returned, which has no start-join address, no service, no check and no
    statsite address whatever the command line says.  So such a run never
    contacts an address to join, never registers a service or a check,
    never builds a statsite sink, and installs the in-memory sink alone
    with the host name tag switched off. *)
Theorem Run_registers_nothing (args : list string) (c : ServiceCommand.t T) (w : World T)
  (ev : Event T) :
  In ev (traceOf (Run E args c w)) ->
  kind ev <> KContact /\ kind ev <> KAddService /\ kind ev <> KAddCheck /\
  (forall addr r, ev <> EvNewStatsiteSink addr r) /\
  (forall conf sink,
      ev = EvNewGlobal conf sink ->
      EnableHostname conf = false /\ exists inm, sink = Single (OfInmem inm)).
Proof.
  intros Hin.
  destruct (Run_cases args c w)
    as [(perr & Hp & Hr) | (cmdConfig & Hp & [(e & w1 & Hh & Hr) | (h & w1 & Hh & Hr)])];
    rewrite Hr in Hin; unfold traceOf in Hin; cbn [fst] in Hin.
  - apply quiet_by_kind. in_split Hin.
    + destruct (Flag.printed perr); in_split Hin. subst ev. cbn. tauto.
    + apply uiOutput_kind in Hin. left. exact (proj1 Hin).
  - apply quiet_by_kind. in_split Hin; [subst ev; cbn; tauto|].
    apply uiError_kind in Hin. left. exact (proj1 Hin).
  - destruct (RunFrom E (resolved (entered args c) h) (entered args c) w1)
      as [[[evs0 w0] c0] code0] eqn:Hfrom.
    cbn [fst] in Hin. destruct Hin as [<-|Hin]; [apply quiet_by_kind; cbn; tauto|].
    apply RunFrom_outcome in Hfrom.
    assert (Htele : forall inm tele,
               Telemetry E (resolved (entered args c) h) inm tele ->
               tele = [EvNewGlobal (disableHostname (metricsDefaultConfig E "consul"))
                         (Single (OfInmem inm))]).
    { intros inm tele [_|sink Hs]; [reflexivity | now elim Hs]. }
    assert (Hserved : forall g served code,
               Served E (resolved (entered args c) h) (ServiceCommand.Ui (entered args c))
                 g served code ->
               forall ev, In ev served ->
                          kind ev = KUi \/ kind ev = KStartSync \/ kind ev = KFlush
                          \/ kind ev = KSignals).
    { intros g served code HS ev' H.
      destruct HS as [Hne | contacts done s rest err0 HJ Hl
                     | contacts done ck rest err0 HJ Hl | contacts code HJ].
      - now elim Hne.
      - exfalso. destruct done; discriminate Hl.
      - exfalso. destruct done; discriminate Hl.
      - assert (contacts = []) as ->.
        { destruct HJ as [_ | results addr _ Habs]; [reflexivity | destruct Habs]. }
        cbn [Services Checks resolved setVersionInfo setNodeName DefaultConfig map app] in H.
        in_split H;
          first [ subst ev'; cbn; tauto
                | seg_kind H; left; exact (proj1 H) ]. }
    destruct Hfrom as [warn g lo Hw | warn g lw lo inm err0 Hw Hne
                      | warn g lw lo inm tele err0 a0 rpc0 http0 Hw HT
                      | warn g lw lo inm tele a0 rpc0 http0 served code down Hw HT HS HR];
      try (now elim Hne);
      try (rewrite (Htele _ _ HT) in Hin); unfold inmemEvents in Hin;
      in_split Hin;
      first [ eapply Warned_kind in Hin; [|eassumption];
              apply quiet_by_kind; left; exact (proj1 Hin)
            | eapply released_kind in Hin; [|eassumption];
              apply quiet_by_kind; rewrite (proj1 Hin); tauto
            | apply quiet_by_kind;
              destruct (Hserved _ _ _ HS _ Hin) as [Hk | [Hk | [Hk | Hk]]]; rewrite Hk; tauto
            | apply (quiet_metrics (inm := inm)); subst ev; tauto
            | subst ev; apply quiet_by_kind; cbn; tauto ].
Qed.

(** *** The order of the calls *)

Lemma stretch_nil (lo hi : nat) : (lo <= hi)%nat -> stretch (T := T) lo hi [].
Proof. intros H. split; [exact H|]. split; [constructor | intros ev []]. Qed.

Lemma stretch_app (a b c d : nat) (l1 l2 : list (Event T)) :
  stretch a b l1 -> stretch c d l2 -> (b <= c)%nat -> stretch a d (l1 ++ l2).
Proof.
  intros (Hab & Hs1 & Hb1) (Hcd & Hs2 & Hb2) Hbc. split; [lia|]. split.
  - induction l1 as [|x l1 IH]; [exact Hs2|].
    cbn [app]. inversion Hs1 as [|x' l1' Hs1' Hall]; subst.
    constructor.
    + apply IH; [exact Hs1' | intros ev H; apply Hb1; now right].
    + apply Forall_app. split; [exact Hall|].
      apply Forall_forall. intros y Hy. unfold inOrder.
      destruct (Hb1 x (or_introl eq_refl)) as [Hx|Hx]; [now left|].
      destruct (Hb2 y Hy) as [Hy'|Hy']; [right; now left|].
      right. right. lia.
  - intros ev H. apply in_app_or in H. destruct H as [H|H].
    + destruct (Hb1 ev H) as [Hk|Hk]; [now left | right; lia].
    + destruct (Hb2 ev H) as [Hk|Hk]; [now left | right; lia].
Qed.

Lemma stretch_same (k : Kind) (lo hi : nat) (l : list (Event T)) :
  (forall ev, In ev l -> kind ev = k) ->
  (lo <= hi)%nat ->
  k = KUi \/ (lo <= phase k <= hi)%nat ->
  stretch lo hi l.
Proof.
  intros Hk Hle Hcase. split; [exact Hle|]. split.
  - induction l as [|x l IH]; constructor.
    + apply IH. intros ev H. apply Hk. now right.
    + apply Forall_forall. intros y Hy. unfold inOrder.
      rewrite (Hk x (or_introl eq_refl)), (Hk y (or_intror Hy)). right. right. lia.
  - intros ev H. rewrite (Hk ev H). destruct Hcase as [->|Hcase]; [now left | now right].
Qed.

Lemma stretch_app_same (k : Kind) (lo hi : nat) (seg rest : list (Event T)) :
  (forall ev, In ev seg -> kind ev = k) ->
  (lo <= phase k <= hi)%nat ->
  stretch (phase k) hi rest ->
  stretch lo hi (seg ++ rest).
Proof.
  intros Hk Hb Hrest.
  apply stretch_app with (b := phase k) (c := phase k); [|exact Hrest | lia].
  apply stretch_same with (k := k); [exact Hk | lia | right; lia].
Qed.

Lemma stretch_app_ui (lo hi : nat) (seg rest : list (Event T)) :
  (forall ev, In ev seg -> kind ev = KUi) ->
  stretch lo hi rest ->
  stretch lo hi (seg ++ rest).
Proof.
  intros Hk Hrest.
  apply stretch_app with (b := lo) (c := lo); [|exact Hrest | lia].
  apply stretch_same with (k := KUi); [exact Hk | lia | now left].
Qed.

Lemma stretch_cons (lo hi : nat) (ev : Event T) (rest : list (Event T)) :
  (lo <= phase (kind ev) <= hi)%nat ->
  stretch (phase (kind ev)) hi rest ->
  stretch lo hi (ev :: rest).
Proof.
  intros Hb Hrest. change (ev :: rest) with ([ev] ++ rest)%list.
  apply stretch_app_same with (k := kind ev); [|exact Hb | exact Hrest].
  intros ev' [<-|[]]. reflexivity.
Qed.

Lemma stretch_weaken (lo hi lo' : nat) (l : list (Event T)) :
  stretch lo hi l -> (lo' <= lo)%nat -> stretch lo' hi l.
Proof.
  intros (Hle & Hs & Hb) Hlo. split; [lia|]. split; [exact Hs|].
  intros ev H. destruct (Hb ev H) as [Hk|Hk]; [now left | right; lia].
Qed.

Lemma stretch_inOrder (lo hi : nat) (l1 l2 l3 : list (Event T)) (ev1 ev2 : Event T) :
  stretch lo hi (l1 ++ ev1 :: l2 ++ ev2 :: l3) -> inOrder ev1 ev2.
Proof.
  intros (_ & Hs & _). induction l1 as [|x l1 IH].
  - cbn [app] in Hs. inversion Hs as [|x' l' _ Hall]; subst.
    rewrite Forall_forall in Hall. apply Hall. apply in_or_app. right. now left.
  - cbn [app] in Hs. inversion Hs as [|x' l' Hs' _]; subst. exact (IH Hs').
Qed.

(* Reads [stretch lo hi l] along the [++] and [::] of [l]. *)
Ltac stretch_solve :=
  lazymatch goal with
  | |- stretch _ _ [] => apply stretch_nil; cbn [phase kind]; lia
  | |- stretch _ _ (_ :: _) =>
      apply stretch_cons; [cbn [phase kind]; lia | cbn [phase kind]; stretch_solve]
  | |- stretch _ _ (_ ++ _)%list =>
      first
        [ apply stretch_app_ui;
          [ let ev := fresh "ev" in let H := fresh "H" in
            intros ev H; seg_kind H; exact (proj1 H)
          | stretch_solve ]
        | eapply stretch_app_same;
          [ let ev := fresh "ev" in let H := fresh "H" in
            intros ev H; seg_kind H; exact (proj1 H)
          | cbn [phase]; lia
          | cbn [phase]; stretch_solve ] ]
  | |- stretch _ _ _ =>
      eapply stretch_same;
      [ let ev := fresh "ev" in let H := fresh "H" in
        intros ev H; seg_kind H; exact (proj1 H)
      | cbn [phase]; lia
      | first [left; reflexivity | right; cbn [phase]; lia] ]
  end.

Lemma RunFrom_stretch (config : Config T) (c : ServiceCommand.t T) (w : World T) :
  stretch 2 11 (traceOf (RunFrom E config c w)).
Proof.
  destruct (RunFrom E config c w) as [[[evs w'] c'] code] eqn:Hrun.
  apply RunFrom_outcome in Hrun. unfold traceOf. cbn [fst].
  destruct Hrun as [warn g lo Hw | warn g lw lo inm err0 Hw Hne
                   | warn g lw lo inm tele err0 a0 rpc0 http0 Hw HT
                   | warn g lw lo inm tele a0 rpc0 http0 served code down Hw HT HS HR].
  1-3: stretch_solve.
  destruct HS as [Hne | contacts done s rest err0 HJ Hl
                 | contacts done ck rest err0 HJ Hl | contacts code HJ];
    unfold failedService, failedCheck;
    rewrite <- ?app_assoc; cbn [app]; rewrite <- ?app_assoc; cbn [app];
    stretch_solve.
Qed.

(** X2. The calls of a run follow the order of the statements: of any two
    calls in a trace, neither of them a call of the user interface, the
    later one belongs to the same or to a later step among host name
    lookup, loggers, metrics, [setupAgent], join, service registration,
    check registration, [StartSync], gate flush, signal handler and
    shutdowns.  So no registration precedes [setupAgent], no check is
    registered before a service, and no shutdown is followed by anything
    but a shutdown. *)
Theorem calls_follow_the_statements (args : list string) (config : Config T)
  (c : ServiceCommand.t T) (w : World T) :
  (forall l1 ev1 l2 ev2 l3,
      traceOf (Run E args c w) = (l1 ++ ev1 :: l2 ++ ev2 :: l3)%list ->
      kind ev1 <> KUi -> kind ev2 <> KUi ->
      (phase (kind ev1) <= phase (kind ev2))%nat) /\
  (forall l1 ev1 l2 ev2 l3,
      traceOf (RunFrom E config c w) = (l1 ++ ev1 :: l2 ++ ev2 :: l3)%list ->
      kind ev1 <> KUi -> kind ev2 <> KUi ->
      (phase (kind ev1) <= phase (kind ev2))%nat).
Proof.
  assert (Hfrom : forall config' c0 w0, stretch 0 11 (traceOf (RunFrom E config' c0 w0))).
  { intros config' c0 w0. apply stretch_weaken with (lo := 2%nat); [|lia].
    apply RunFrom_stretch. }
  assert (Hrun : stretch 0 11 (traceOf (Run E args c w))).
  { destruct (Run_cases args c w)
      as [(perr & Hp & Hr) | (cmdConfig & Hp & [(e & w1 & Hh & Hr) | (h & w1 & Hh & Hr)])];
      rewrite Hr; unfold traceOf; cbn [fst].
    - destruct (Flag.printed perr); cbn [app]; stretch_solve.
    - stretch_solve.
    - pose proof (RunFrom_stretch (resolved (entered args c) h) (entered args c) w1) as Hs.
      destruct (RunFrom E (resolved (entered args c) h) (entered args c) w1)
        as [[[evs0 w0] c0] code0].
      unfold traceOf in Hs. cbn [fst] in *.
      apply stretch_cons; [cbn; lia|]. cbn [phase kind].
      apply stretch_weaken with (lo := 2%nat); [exact Hs | lia]. }
  split; intros l1 ev1 l2 ev2 l3 Heq H1 H2.
  - rewrite Heq in Hrun. apply stretch_inOrder in Hrun.
    destruct Hrun as [Hk | [Hk | Hle]]; [now elim H1 | now elim H2 | exact Hle].
  - specialize (Hfrom config c w). rewrite Heq in Hfrom. apply stretch_inOrder in Hfrom.
    destruct Hfrom as [Hk | [Hk | Hle]]; [now elim H1 | now elim H2 | exact Hle].
Qed.

(** *** What a run does to the command *)

Lemma createAgent_sameCommand (config : Config T) (lo : LogOutput T) (lw : LogWriter T)
  (st : St T) :
  sameCommand (self st) (self (snd (fst (createAgent E config lo lw st)))).
Proof.
  unfold createAgent.
  destruct (setupAgent E config lo lw (world st)) as [[a rpc http|err a rpc http] w1] eqn:Hs;
    (erewrite bind_perform; [|exact Hs]).
  - destruct rpc as [r|], http as [h|]; cbn; now repeat split.
  - cbn. now repeat split.
Qed.

Lemma RunFrom_sameCommand (config : Config T) (c : ServiceCommand.t T) (w : World T) :
  sameCommand c (receiverOf (RunFrom E config c w)).
Proof.
  assert (Hrefl : forall c0 : ServiceCommand.t T, sameCommand c0 c0) by (now repeat split).
  unfold RunFrom, runFunction. rewrite RunBodyFrom_serve.
  set (st0 := {| world := w; self := c; deferred := [] |}).
  destruct (checkGOMAXPROCS_spec st0) as (warn & Hw & Hg).
  unfold bind at 1. rewrite Hg.
  destruct (setupLoggers E config (world st0)) as [[[g lw] lo] w1] eqn:Hl.
  erewrite bind_perform; [|exact Hl]. cbn [fst snd].
  destruct lw as [lw|]; [|cbn; apply Hrefl].
  destruct (setupTelemetry_spec config (withWorld st0 w1))
    as (inm & w2 & [(tele & HT & Ht) | (err & Hne & Ht)]);
    unfold bind at 1; rewrite Ht; [|cbn; apply Hrefl].
  pose proof (createAgent_sameCommand config lo lw (withWorld (withWorld st0 w1) w2)) as Hsame.
  destruct (createAgent_spec config lo lw (withWorld (withWorld st0 w1) w2))
    as (st3 & Hui & [(err & a & rpc & http & Hc & Hd) | (a & rpc & http & Hc & Hd)]);
    unfold bind at 1; rewrite Hc in *; cbn [fst snd] in Hsame.
  - destruct (runDeferred E (deferred st3) (world st3)) as [devs w3]. exact Hsame.
  - destruct (serve_spec config g st3) as (served & w4 & code' & Hs & HS).
    rewrite Hs. cbn [deferred withWorld world self].
    destruct (runDeferred E (deferred st3) w4) as [devs w5]. exact Hsame.
Qed.

(** X9. [Run] leaves its mark on the command: the user interface is the
    one it had wrapped in the prefixes "==> " (output and errors) and four
    blanks (info), the arguments are the ones [Run] was called with, and
    revision, version and prerelease label are untouched.  So after [Run]
    a non-empty error message gets one "==> " more than before, and a
    second [Run] on the same command wraps the user interface a second
    time. *)
Theorem Run_wraps_the_Ui (args : list string) (c : ServiceCommand.t T) (w : World T) :
  ServiceCommand.Ui (receiverOf (Run E args c w))
  = PrefixedUi "==> " "    " "==> " (ServiceCommand.Ui c) /\
  ServiceCommand.args (receiverOf (Run E args c w)) = args /\
  ServiceCommand.Revision (receiverOf (Run E args c w)) = ServiceCommand.Revision c /\
  ServiceCommand.Version (receiverOf (Run E args c w)) = ServiceCommand.Version c /\
  ServiceCommand.VersionPrerelease (receiverOf (Run E args c w))
  = ServiceCommand.VersionPrerelease c /\
  (forall message,
      message <> "" ->
      uiError (T := T) (ServiceCommand.Ui (receiverOf (Run E args c w))) message
      = uiError (ServiceCommand.Ui c) ("==> " ++ message)) /\
  (forall args2 w2,
      ServiceCommand.Ui (receiverOf (Run E args2 (receiverOf (Run E args c w)) w2))
      = PrefixedUi "==> " "    " "==> "
          (PrefixedUi "==> " "    " "==> " (ServiceCommand.Ui c))).
Proof.
  assert (Hrun : forall args0 c0 w0,
             sameCommand (entered args0 c0) (receiverOf (Run E args0 c0 w0))).
  { intros args0 c0 w0.
    destruct (Run_cases args0 c0 w0)
      as [(perr & Hp & Hr) | (cmdConfig & Hp & [(e & w1 & Hh & Hr) | (h & w1 & Hh & Hr)])];
      rewrite Hr; try (cbn; now repeat split).
    pose proof (RunFrom_sameCommand (resolved (entered args0 c0) h) (entered args0 c0) w1)
      as Hsame.
    destruct (RunFrom E (resolved (entered args0 c0) h) (entered args0 c0) w1)
      as [[[evs0 w0'] c0'] code0]. exact Hsame. }
  destruct (Hrun args c w) as (Hui & Hargs & Hrev & Hver & Hpre).
  split; [exact Hui|]. split; [exact Hargs|]. split; [exact Hrev|].
  split; [exact Hver|]. split; [exact Hpre|]. split.
  - intros message Hm. rewrite Hui. cbn [entered setArgs setUi ServiceCommand.Ui uiError].
    apply String.eqb_neq in Hm. now rewrite Hm.
  - intros args2 w2. destruct (Hrun args2 (receiverOf (Run E args c w)) w2) as (Hui2 & _).
    rewrite Hui2. cbn [entered setArgs setUi ServiceCommand.Ui]. now rewrite Hui.
Qed.
End Proofs.

(** ** The log gate *)

Section GateProofs.
Variable Entry : Type.
Import GatedWriter.

Lemma run_gated (ws : list Entry) (g : t Entry) :
  released g = false ->
  run (map (@Write Entry) ws) g
  = {| released := false; buffer := (buffer g ++ ws)%list; downstream := downstream g |}.
Proof.
  revert g. induction ws as [|e ws IH]; intros g Hg.
  - cbn. rewrite app_nil_r. destruct g; cbn in *; now subst.
  - cbn [map run fold_left step]. unfold write at 1. rewrite Hg.
    change (fold_left (@step Entry) (map (@Write Entry) ws) ?x) with (run (map (@Write Entry) ws) x).
    rewrite IH by reflexivity. cbn. now rewrite <- app_assoc.
Qed.

Lemma run_released (ops : list (Op Entry)) (g : t Entry) :
  released g = true ->
  run ops g
  = {| released := true; buffer := buffer g;
       downstream := (downstream g ++ written ops)%list |}.
Proof.
  revert g. induction ops as [|op ops IH]; intros g Hg.
  - cbn. rewrite app_nil_r. destruct g; cbn in *; now subst.
  - cbn [run fold_left].
    change (fold_left (@step Entry) ops ?x) with (run ops x).
    destruct op as [e|]; cbn [step written].
    + unfold write. rewrite Hg. rewrite IH by reflexivity. cbn. now rewrite <- app_assoc.
    + unfold flush. rewrite Hg. now apply IH.
Qed.

(** C8. Entries written to a new gate before the first [flush] do not
    reach the destination; the first [flush] emits them, once each and in
    the order they came; whatever calls follow, the destination then holds
    those entries followed by the later writes in their order, so a write
    after the release is forwarded at once, is not buffered, and a later
    [flush] adds nothing. *)
Theorem gate_buffers_until_flush (before : list Entry) (after : list (Op Entry)) :
  let gated := run (map (@Write Entry) before) (new Entry) in
  downstream gated = [] /\
  buffer gated = before /\
  downstream (flush gated) = before /\
  downstream (run after (flush gated)) = (before ++ written after)%list /\
  buffer (run after (flush gated)) = [] /\
  (forall (g : t Entry) (e : Entry),
      released g = true ->
      downstream (write e g) = (downstream g ++ [e])%list /\
      buffer (write e g) = buffer g /\ released (write e g) = true) /\
  flush (flush gated) = flush gated /\
  (forall g : t Entry, released g = true -> flush g = g).
Proof.
  intros gated. unfold gated. rewrite run_gated by reflexivity. cbn [new buffer downstream app].
  assert (Hf : flush {| released := false; buffer := before; downstream := [] |}
               = {| released := true; buffer := []; downstream := before |}) by reflexivity.
  rewrite !Hf. rewrite run_released by reflexivity. cbn.
  do 5 (split; [reflexivity|]).
  split; [intros g e Hg; unfold write; rewrite Hg; now repeat split|].
  split; [reflexivity|].
  intros g Hg. unfold flush. now rewrite Hg.
Qed.

End GateProofs.

(** ** The theorems on concrete runs *)


(** C6 on a concrete command line: the three flags parse into [cmdConfig],
    and the configuration [readConfig] returns has none of their values. *)
Theorem flags_do_not_reach_the_configuration :
  (exists cmdConfig,
      Flag.Parse cmdFlags (zeroConfig Demo.carriers) Demo.overrides = inr cmdConfig /\
      LogLevel cmdConfig = "DEBUG" /\ NodeName cmdConfig = "web1" /\
      BindAddr cmdConfig = "10.0.0.5") /\
  (exists evs st config,
      call (R' := Z) (readConfig (Demo.collaborators Demo.happy)) (Demo.entry Demo.overrides)
      = (evs, st, Next (Some config)) /\
      LogLevel config = "INFO" /\ NodeName config = "build-host" /\
      BindAddr config = "0.0.0.0").
Proof.
  split.
  - eexists. split; [reflexivity|]. now repeat split.
  - do 3 eexists. split; [reflexivity|]. now repeat split.
Qed.






(** C2 on two start-join addresses of which none answers. *)
Lemma startup_join_asymmetry_witness :
  StartJoin (Demo.configured "") <> [] /\
  (forall addr, ~ In (EvContact (T := Demo.carriers) addr true) (traceOf (Demo.run Demo.noneReachable ""))) /\
  codeOf (Demo.run Demo.noneReachable "") = 1.
Proof.
  assert (Hne : StartJoin (Demo.configured "") <> []) by discriminate.
  assert (Hnone : forall addr,
             ~ In (EvContact (T := Demo.carriers) addr true) (traceOf (Demo.run Demo.noneReachable ""))).
  { intros addr H. vm_compute in H.
    repeat (destruct H as [H|H]; [discriminate H|]). exact H. }
  split; [exact Hne|]. split; [exact Hnone|].
  exact (proj2 (proj2 (proj2 (@startup_join_asymmetry Demo.carriers
                                (Demo.collaborators Demo.noneReachable) (Demo.configured "")
                                (Demo.entry []))))
           (Demo.command []) Demo.start
           (traceOf (Demo.run Demo.noneReachable ""))
           (worldOf (Demo.run Demo.noneReachable ""))
           (receiverOf (Demo.run Demo.noneReachable ""))
           (codeOf (Demo.run Demo.noneReachable "")) eq_refl Hne Hnone).
Defined.

(** C4 on a host whose name cannot be looked up. *)
Lemma node_name_defaults_to_hostname_witness :
  Flag.Parse cmdFlags (zeroConfig Demo.carriers) [] = inr (zeroConfig Demo.carriers) /\
  osHostname (Demo.collaborators Demo.hostnameFails) Demo.start
  = (Err "hostname: not available", 1%nat) /\
  Demo.runArgs Demo.hostnameFails []
  = ([EvHostname (T := Demo.carriers) (Err "hostname: not available");
      EvUiError "==> Error determining hostname: hostname: not available"],
     1%nat, entered [] (Demo.command []), 1).
Proof.
  split; [reflexivity|]. split; [reflexivity|].
  exact (proj2 (proj2 (proj2 (@node_name_defaults_to_hostname Demo.carriers
                                (Demo.collaborators Demo.hostnameFails) [] (Demo.command [])
                                Demo.start)
                         (zeroConfig Demo.carriers) eq_refl)
                  "hostname: not available" 1%nat eq_refl)).
Defined.

(** C9 on the configuration [readConfig] returns for an empty command line. *)
Lemma default_configuration_values_witness :
  exists evs st config,
    call (R' := Z) (readConfig (Demo.collaborators Demo.happy)) (Demo.entry [])
    = (evs, st, Next (Some config)) /\
    LogLevel config = "INFO" /\ BindAddr config = "0.0.0.0" /\
    PortConfig.HTTP (Ports config) = 8500 /\ PortConfig.Server (Ports config) = 8300.
Proof.
  do 3 eexists. split; [reflexivity|].
  apply (proj2 (proj2 (proj2 (proj2 (@default_configuration_values Demo.carriers
                                       (Demo.collaborators Demo.happy) (Demo.entry []))))) _ _ _
           eq_refl).
Defined.

(** C8 on two early entries, then a write, a second flush and a write. *)
Lemma gate_buffers_until_flush_witness :
  GatedWriter.released (GatedWriter.flush (GatedWriter.new string)) = true /\
  GatedWriter.downstream
    (GatedWriter.run [GatedWriter.Write "c"; GatedWriter.Flush string; GatedWriter.Write "d"]
       (GatedWriter.flush
          (GatedWriter.run [GatedWriter.Write "a"; GatedWriter.Write "b"]
             (GatedWriter.new string))))
  = ["a"; "b"; "c"; "d"] /\
  GatedWriter.downstream (GatedWriter.write "e" (GatedWriter.flush (GatedWriter.new string)))
  = ["e"].
Proof.
  split; [reflexivity|]. split.
  - exact (proj1 (proj2 (proj2 (proj2 (@gate_buffers_until_flush string ["a"; "b"]
            [GatedWriter.Write "c"; GatedWriter.Flush string; GatedWriter.Write "d"]))))).
  - exact (proj1 (proj1 (proj2 (proj2 (proj2 (proj2 (proj2
            (@gate_buffers_until_flush string [] [])))))) 
            (GatedWriter.flush (GatedWriter.new string)) "e" eq_refl)).
Defined.

(** ** More theorems on concrete runs *)


(** X2 on [setupAgent] and the first service of a run. *)
Lemma calls_follow_the_statements_witness :
  traceOf (Demo.run Demo.dbFails "")
  = (firstn 4 (traceOf (Demo.run Demo.dbFails ""))
     ++ EvSetupAgent (SetupOk (T := Demo.carriers) "agent" (Some "rpc") (Some "http"))
     :: firstn 2 (skipn 5 (traceOf (Demo.run Demo.dbFails "")))
     ++ EvAddService (T := Demo.carriers) "web" None None
     :: skipn 8 (traceOf (Demo.run Demo.dbFails "")))%list /\
  (phase KSetupAgent <= phase KAddService)%nat.
Proof.
  split; [vm_compute; reflexivity|].
  apply (proj2 (@calls_follow_the_statements Demo.carriers (Demo.collaborators Demo.dbFails) []
                  (Demo.configured "") (Demo.command []) Demo.start)
           (firstn 4 (traceOf (Demo.run Demo.dbFails "")))
           (EvSetupAgent (SetupOk (T := Demo.carriers) "agent" (Some "rpc") (Some "http")))
           (firstn 2 (skipn 5 (traceOf (Demo.run Demo.dbFails ""))))
           (EvAddService (T := Demo.carriers) "web" None None)
           (skipn 8 (traceOf (Demo.run Demo.dbFails "")))).
  - vm_compute; reflexivity.
  - discriminate.
  - discriminate.
Defined.


(** X4 on a run started with all three flags set. *)
Lemma Run_registers_nothing_witness :
  In (EvStartSync (T := Demo.carriers))
     (traceOf (Run (Demo.collaborators Demo.happy) Demo.overrides (Demo.command [])
                 Demo.start)) /\
  forall ev,
    In ev (traceOf (Run (Demo.collaborators Demo.happy) Demo.overrides (Demo.command [])
                      Demo.start)) ->
    kind ev <> KContact /\ kind ev <> KAddService /\ kind ev <> KAddCheck.
Proof.
  split; [vm_compute; tauto|].
  intros ev Hin.
  destruct (@Run_registers_nothing Demo.carriers (Demo.collaborators Demo.happy)
              Demo.overrides (Demo.command []) Demo.start ev Hin)
    as (H1 & H2 & H3 & _).
  split; [exact H1|]. split; [exact H2 | exact H3].
Defined.

(** X5 on a misspelt flag. *)
Lemma flag_error_stops_Run_witness :
  Flag.Parse cmdFlags (zeroConfig Demo.carriers) ["-nod"; "web1"]
  = inl (Flag.NotDefined "nod") /\
  Demo.runArgs Demo.happy ["-nod"; "web1"]
  = ([EvStderr (T := Demo.carriers) "flag provided but not defined: -nod"; EvUiOutput ""],
     Demo.start, entered ["-nod"; "web1"] (Demo.command []), 1).
Proof.
  assert (Hp : Flag.Parse cmdFlags (zeroConfig Demo.carriers) ["-nod"; "web1"]
               = inl (Flag.NotDefined "nod")) by (vm_compute; reflexivity).
  split; [exact Hp|].
  exact (@flag_error_stops_Run Demo.carriers (Demo.collaborators Demo.happy)
           ["-nod"; "web1"] (Demo.command []) Demo.start (Flag.NotDefined "nod") Hp).
Defined.



(** X8 on a command line that sets all three flags. *)
Lemma readConfig_returns_stamped_defaults_witness :
  exists evs st config,
    call (R' := Z) (readConfig (Demo.collaborators Demo.happy)) (Demo.entry Demo.overrides)
    = (evs, st, Next (Some config)) /\
    Revision config = "abc123" /\ Version config = "0.1.0" /\
    VersionPrerelease config = "dev" /\
    StartJoin config = [] /\ Services config = [] /\ Checks config = [] /\
    StatsiteAddr config = "".
Proof.
  do 3 eexists. split; [reflexivity|].
  apply (proj2 (proj2 (@readConfig_returns_stamped_defaults Demo.carriers
                         (Demo.collaborators Demo.happy) (Demo.entry Demo.overrides)
                         _ _ _ eq_refl))).
Defined.

(** X9 on an error message after one run. *)
Lemma Run_wraps_the_Ui_witness :
  "disk full" <> "" /\
  uiError (T := Demo.carriers)
    (ServiceCommand.Ui (receiverOf (Demo.runArgs Demo.happy []))) "disk full"
  = [EvUiError "==> disk full"].
Proof.
  assert (Hne : "disk full" <> "") by discriminate.
  split; [exact Hne|].
  exact (proj1 (proj2 (proj2 (proj2 (proj2 (proj2
           (@Run_wraps_the_Ui Demo.carriers (Demo.collaborators Demo.happy) []
              (Demo.command []) Demo.start))))))
           "disk full" Hne).
Defined.
